(** * Meal Planner client pages: API base discovery, auth guard,
      notification badges, header widget and family code view.

    Shallow embedding of
      - app/page/js/auth.js
      - app/page/js/notifications.js
      - app/page/js/user-header.js
      - the family code view (React component [FamilyCode])

    Browser state that the scripts read and write (the two storages, the
    page-wide [API_BASE] binding, the readiness promise, the navigation
    target, the console and the requests sent) is one record, [Page].
    Asynchronous functions are terms of a small instruction tree, [Prog],
    whose interpreter [run] threads a [Page] and stops with [Blocked] at an
    [await window.API_READY] that cannot proceed yet, handing back the
    continuation. *)

From stdpp Require Import base strings list gmap pretty sorting.
From Stdlib Require Import Ascii Permutation Sorted.
From Stdlib Require OrderedTypeEx.

(** ** JavaScript values that occur in the scripts *)

Module Js.

(** Primitive field values of the JSON objects the backend returns and the
    pages store: integers and strings. *)
Inductive Prim : Type :=
| PNum (n : Z)
| PStr (s : string).

(** Template-literal conversion of a property read ([None] is
    [undefined]). *)
Definition tostr (v : option Prim) : string :=
  match v with
  | None => "undefined"
  | Some (PNum n) => pretty n
  | Some (PStr s) => s
  end.

(** Template-literal conversion of a binding that holds a string or
    [null]. *)
Definition tostr_nullable (v : option string) : string :=
  match v with
  | None => "null"
  | Some s => s
  end.

(** [!v] for a value that is a string or [null]: [null] and the empty
    string are falsy. *)
Definition falsy (v : option string) : bool :=
  match v with
  | None => true
  | Some s => bool_decide (s = "")
  end.

End Js.
Import Js.

(** ** The browser page *)

Module Browser.

Record Request : Type := mkRequest { req_method : string; req_url : string }.

(** What [response.json()] yields: it rejects on a body that is not JSON;
    otherwise the body is an object or an array of objects. *)
Inductive Body : Type :=
| NotJson
| JObj (o : gmap string Prim)
| JArr (elems : list (gmap string Prim)).

(** How a [fetch] promise settles. *)
Inductive FetchResult : Type :=
| NetworkError
| Response (ok : bool) (status : nat) (body : Body).

(** The backend and the network between it and the page. *)
Definition Network : Type := Request → FetchResult.

Record Page : Type := mkPage {
  API_BASE : option string;               (* let API_BASE = null *)
  window_API_BASE : option string;        (* window.API_BASE *)
  resolveApiReady : bool;                 (* _resolveApiReady is not null *)
  API_READY : bool;                       (* window.API_READY is fulfilled *)
  sessionStorage : gmap string string;
  localStorage : gmap string string;
  location_href : option string;          (* last assignment to window.location.href *)
  requests : list Request;                (* fetch calls, oldest first *)
  console : list string                   (* console output, oldest first *)
}.

(** State of a freshly loaded page, before any script has run. *)
Definition fresh (ss ls : gmap string string) : Page :=
  {| API_BASE := None; window_API_BASE := None;
     resolveApiReady := true; API_READY := false;
     sessionStorage := ss; localStorage := ls;
     location_href := None; requests := []; console := [] |}.

Definition set_sessionStorage (f : gmap string string → gmap string string) (p : Page) : Page :=
  {| API_BASE := API_BASE p; window_API_BASE := window_API_BASE p;
     resolveApiReady := resolveApiReady p; API_READY := API_READY p;
     sessionStorage := f (sessionStorage p); localStorage := localStorage p;
     location_href := location_href p; requests := requests p;
     console := console p |}.

Definition set_localStorage (f : gmap string string → gmap string string) (p : Page) : Page :=
  {| API_BASE := API_BASE p; window_API_BASE := window_API_BASE p;
     resolveApiReady := resolveApiReady p; API_READY := API_READY p;
     sessionStorage := sessionStorage p; localStorage := f (localStorage p);
     location_href := location_href p; requests := requests p;
     console := console p |}.

Definition set_href (h : string) (p : Page) : Page :=
  {| API_BASE := API_BASE p; window_API_BASE := window_API_BASE p;
     resolveApiReady := resolveApiReady p; API_READY := API_READY p;
     sessionStorage := sessionStorage p; localStorage := localStorage p;
     location_href := Some h; requests := requests p;
     console := console p |}.

Definition log_request (r : Request) (p : Page) : Page :=
  {| API_BASE := API_BASE p; window_API_BASE := window_API_BASE p;
     resolveApiReady := resolveApiReady p; API_READY := API_READY p;
     sessionStorage := sessionStorage p; localStorage := localStorage p;
     location_href := location_href p; requests := requests p ++ [r];
     console := console p |}.

Definition log_console (msg : string) (p : Page) : Page :=
  {| API_BASE := API_BASE p; window_API_BASE := window_API_BASE p;
     resolveApiReady := resolveApiReady p; API_READY := API_READY p;
     sessionStorage := sessionStorage p; localStorage := localStorage p;
     location_href := location_href p; requests := requests p;
     console := console p ++ [msg] |}.

(** Instruction trees for the asynchronous functions of the scripts. *)
Inductive Prog (A : Type) : Type :=
| Ret (a : A)
| ReadApiBase (k : option string → Prog A)
| AwaitApiReady (k : Prog A)
| Fetch (r : Request) (k : FetchResult → Prog A)
| SessionGet (key : string) (k : option string → Prog A)
| SessionRemove (key : string) (k : Prog A)
| LocalGet (key : string) (k : option string → Prog A)
| LocalSet (key value : string) (k : Prog A)
| LocalRemove (key : string) (k : Prog A)
| Console (msg : string) (k : Prog A)
| Navigate (href : string) (k : Prog A).

Arguments Ret {A} a.
Arguments ReadApiBase {A} k.
Arguments AwaitApiReady {A} k.
Arguments Fetch {A} r k.
Arguments SessionGet {A} key k.
Arguments SessionRemove {A} key k.
Arguments LocalGet {A} key k.
Arguments LocalSet {A} key value k.
Arguments LocalRemove {A} key k.
Arguments Console {A} msg k.
Arguments Navigate {A} href k.

Fixpoint bind {A B : Type} (p : Prog A) (f : A → Prog B) : Prog B :=
  match p with
  | Ret a => f a
  | ReadApiBase k => ReadApiBase (λ v, bind (k v) f)
  | AwaitApiReady k => AwaitApiReady (bind k f)
  | Fetch r k => Fetch r (λ v, bind (k v) f)
  | SessionGet key k => SessionGet key (λ v, bind (k v) f)
  | SessionRemove key k => SessionRemove key (bind k f)
  | LocalGet key k => LocalGet key (λ v, bind (k v) f)
  | LocalSet key value k => LocalSet key value (bind k f)
  | LocalRemove key k => LocalRemove key (bind k f)
  | Console msg k => Console msg (bind k f)
  | Navigate href k => Navigate href (bind k f)
  end.

#[global] Instance prog_ret : MRet Prog := λ A a, Ret a.
#[global] Instance prog_bind : MBind Prog := λ A B f p, bind p f.

(** The single instructions as programs. *)
Definition readApiBase : Prog (option string) := ReadApiBase Ret.
Definition awaitApiReady : Prog unit := AwaitApiReady (Ret tt).
Definition fetch (url method : string) : Prog FetchResult :=
  Fetch (mkRequest method url) Ret.
Definition sessionStorage_getItem (key : string) : Prog (option string) :=
  SessionGet key Ret.
Definition sessionStorage_removeItem (key : string) : Prog unit :=
  SessionRemove key (Ret tt).
Definition localStorage_getItem (key : string) : Prog (option string) :=
  LocalGet key Ret.
Definition localStorage_setItem (key value : string) : Prog unit :=
  LocalSet key value (Ret tt).
Definition localStorage_removeItem (key : string) : Prog unit :=
  LocalRemove key (Ret tt).
Definition console_log (msg : string) : Prog unit := Console msg (Ret tt).
Definition navigate (href : string) : Prog unit := Navigate href (Ret tt).

(** Outcome of running a program: it finished, or it is suspended on the
    readiness promise with the rest of its body still to run. *)
Inductive Result (A : Type) : Type :=
| Done (p : Page) (a : A)
| Blocked (p : Page) (rest : Prog A).

Arguments Done {A} p a.
Arguments Blocked {A} p rest.

Fixpoint run {A : Type} (net : Network) (prog : Prog A) (p : Page) : Result A :=
  match prog with
  | Ret a => Done p a
  | ReadApiBase k => run net (k (API_BASE p)) p
  | AwaitApiReady k => if API_READY p then run net k p else Blocked p k
  | Fetch r k => run net (k (net r)) (log_request r p)
  | SessionGet key k => run net (k (sessionStorage p !! key)) p
  | SessionRemove key k => run net k (set_sessionStorage (delete key) p)
  | LocalGet key k => run net (k (localStorage p !! key)) p
  | LocalSet key value k => run net k (set_localStorage (insert key value) p)
  | LocalRemove key k => run net k (set_localStorage (delete key) p)
  | Console msg k => run net k (log_console msg p)
  | Navigate href k => run net k (set_href href p)
  end.

End Browser.
Import Browser.

(** ** auth.js *)

Module Auth.

(** Platform functions the script calls. [JSON_parse] is [None] when
    [JSON.parse] throws or yields [null] (the property read on the next
    line then throws): both land in the enclosing [catch]. *)
Class Platform : Type := {
  JSON_parse : string → option (gmap string Prim);
  encodeURIComponent : string → string
}.

(** [window.location] as far as the script reads it. *)
Record Location : Type := mkLocation { protocol : string; origin : string }.

(** [const PROTOCOL = (location.protocol || 'http:')] *)
Definition PROTOCOL (loc : Location) : string :=
  if bool_decide (protocol loc = "") then "http:" else protocol loc.

Definition setApiBase (base : string) (p : Page) : Page :=
  {| API_BASE := Some base;
     window_API_BASE := Some base;
     resolveApiReady := false;
     API_READY := API_READY p || resolveApiReady p;
     sessionStorage := sessionStorage p; localStorage := localStorage p;
     location_href := location_href p; requests := requests p;
     console := console p |}.

(** [if (!API_BASE) await window.API_READY;] *)
Definition await_if_unset : Prog unit :=
  b ← readApiBase;
  if falsy b then awaitApiReady else mret ().

Definition getApiBase : Prog (option string) :=
  await_if_unset;;
  readApiBase.

(** *** detectApiBase *)

Definition ports : list N := [8900; 8765; 8000]%N.
Definition hosts : list string := ["127.0.0.1"; "localhost"].

(** [if (!candidates.includes(base)) candidates.push(base)] *)
Definition push_new (candidates : list string) (base : string) : list string :=
  if bool_decide (base ∈ candidates) then candidates else candidates ++ [base].

Definition dev_base (loc : Location) (h : string) (p : N) : string :=
  PROTOCOL loc +:+ "//" +:+ h +:+ ":" +:+ pretty p +:+ "/api".

Definition candidates (loc : Location) : list string :=
  let same_origin :=
    if String.prefix "http" (PROTOCOL loc) && negb (bool_decide (origin loc = ""))
    then [origin loc +:+ "/api"] else [] in
  foldl (λ cs h, foldl (λ cs p, push_new cs (dev_base loc h p)) cs ports)
        same_origin hosts.

Definition fallback (loc : Location) : string :=
  PROTOCOL loc +:+ "//127.0.0.1:8900/api".

(** What the network does with one health request, in milliseconds since
    the request was issued. *)
Inductive Probe : Type :=
| Replies (latency : nat) (ok : bool)  (* the fetch fulfils, [r.ok = ok] *)
| Fails (latency : nat)                (* the fetch rejects *)
| Hangs.                               (* the fetch never settles by itself *)

(** A settled promise of [fetchWithTimeout]. *)
Record Settled : Type := mkSettled {
  who : string;          (* the candidate *)
  at_ms : nat;           (* when it settled *)
  fulfilled : bool       (* resolve(base) or reject(...) *)
}.

(** The abort timer fires [ms] after the request; a reply that arrives
    before it settles the promise, a later one finds the request aborted. *)
Definition fetchWithTimeout (health : string → Probe) (base : string) (ms : nat) : Settled :=
  match health (base +:+ "/health") with
  | Replies t ok =>
      if decide (t < ms)%nat then mkSettled base t ok else mkSettled base ms false
  | Fails t =>
      if decide (t < ms)%nat then mkSettled base t false else mkSettled base ms false
  | Hangs => mkSettled base ms false
  end.

(** [Promise.any]: the value of the first promise to fulfil, or a
    rejection ([None]) when all reject. [order] is the order in which the
    event loop runs the settlements of the promises it is given. *)
Definition Promise_any (order : list Settled → list Settled) (promises : list Settled)
  : option string :=
  who <$> List.find fulfilled (order promises).

Definition race (order : list Settled → list Settled) (health : string → Probe)
    (cs : list string) : option string :=
  Promise_any order (map (λ base, fetchWithTimeout health base 2500) cs).

Definition warn_no_host (fb : string) : string :=
  "[MealPlanner] No API host responded; falling back to " +:+ fb.

Definition detectApiBase (order : list Settled → list Settled)
    (health : string → Probe) (loc : Location) (p : Page) : Page :=
  let p' :=
    match race order health (candidates loc) with
    | Some winner => setApiBase winner p
    | None => setApiBase (fallback loc) (log_console (warn_no_host (fallback loc)) p)
    end in
  log_console ("[MealPlanner] API_BASE = " +:+ tostr_nullable (API_BASE p')) p'.

(** An event loop that runs settlements by time, and those of the same
    millisecond in the order the requests were issued. *)
Fixpoint insert_by_time (s : Settled) (l : list Settled) : list Settled :=
  match l with
  | [] => [s]
  | x :: l' => if decide (at_ms s ≤ at_ms x)%nat then s :: l else x :: insert_by_time s l'
  end.

Definition by_time (l : list Settled) : list Settled :=
  foldr insert_by_time [] l.

(** Orders an event loop can produce: every settlement runs, none is
    invented, and none runs before an earlier one. *)
Definition fair (order : list Settled → list Settled) : Prop :=
  ∀ l, Permutation (order l) l ∧ StronglySorted (λ a b, (at_ms a ≤ at_ms b)%nat) (order l).

(** A candidate's probe succeeds at [t]: a reply with [r.ok] before the
    abort timer. *)
Definition success_at (health : string → Probe) (base : string) : option nat :=
  let s := fetchWithTimeout health base 2500 in
  if fulfilled s then Some (at_ms s) else None.

(** *** Session checks *)

Definition getTabKey (key : string) : string := key.

Definition clearUserData : Prog unit :=
  sessionStorage_removeItem (getTabKey "currentUser");;
  sessionStorage_removeItem (getTabKey "userFamilies");;
  sessionStorage_removeItem (getTabKey "selectedFamily");;
  sessionStorage_removeItem (getTabKey "mealCodeData").

(** The [catch] block of [checkUserAuth]. *)
Definition checkUserAuth_catch : Prog (option (gmap string Prim)) :=
  console_log "Error checking user auth:";;
  clearUserData;;
  mret None.

Definition checkUserAuth `{Platform} : Prog (option (gmap string Prim)) :=
  await_if_unset;;
  userData ← sessionStorage_getItem (getTabKey "currentUser");
  if falsy userData then mret None else
  match JSON_parse (tostr_nullable userData) with
  | None => checkUserAuth_catch
  | Some user =>
      base ← getApiBase;
      let url := tostr_nullable base +:+ "/user/"
                 +:+ encodeURIComponent (tostr (user !! "user_id")) in
      response ← fetch url "GET";
      match response with
      | NetworkError => checkUserAuth_catch
      | Response ok _ _ =>
          if negb ok then clearUserData;; mret None
          else mret (Some user)
      end
  end.

Definition redirectToLogin : Prog unit :=
  clearUserData;;
  navigate "index.html".

Definition logout : Prog unit :=
  clearUserData;;
  navigate "index.html".

Definition initAuth `{Platform}
    (onSuccess : option (gmap string Prim → Prog unit))
    (onError : option (Prog unit)) : Prog unit :=
  await_if_unset;;
  user ← checkUserAuth;
  match user with
  | Some u =>
      match onSuccess with Some f => f u | None => mret () end
  | None =>
      match onError with Some h => h | None => redirectToLogin end
  end.

(** The failure path of [initAuth]. *)
Definition failure_path (onError : option (Prog unit)) : Prog unit :=
  match onError with Some h => h | None => redirectToLogin end.

(** The page after [clearUserData]. *)
Definition cleared (p : Page) : Page :=
  set_sessionStorage
    (λ ss, delete "mealCodeData" (delete "selectedFamily"
             (delete "userFamilies" (delete "currentUser" ss)))) p.

(** The request by which [checkUserAuth] looks the cached user up. *)
Definition lookup_request `{Platform} (base : string) (user : gmap string Prim) : Request :=
  mkRequest "GET" (base +:+ "/user/" +:+ encodeURIComponent (tostr (user !! "user_id"))).

(** The backend does not confirm the user: the request fails or the
    response is not a success. *)
Definition unconfirmed (net : Network) (r : Request) : Prop :=
  match net r with
  | NetworkError => True
  | Response ok _ _ => ok = false
  end.

(** The four session keys. *)
Definition session_keys : list string :=
  ["currentUser"; "userFamilies"; "selectedFamily"; "mealCodeData"].

End Auth.
Import Auth.

(** ** notifications.js *)

Module Notifications.

(** *** The DOM under a badge target *)

#[warnings="-register-all"]
Inductive Node : Type :=
| Element (tag : string) (classList : list string) (text : string)
          (children : list Node).

Definition classList_of (n : Node) : list string :=
  match n with Element _ c _ _ => c end.
Definition children_of (n : Node) : list Node :=
  match n with Element _ _ _ k => k end.

Definition has_class (cls : string) (n : Node) : bool :=
  bool_decide (cls ∈ classList_of n).

(** [element.querySelector('.' + cls)]: the first descendant, in document
    order, that carries the class. *)
Fixpoint querySelector (cls : string) (n : Node) : option Node :=
  match n with
  | Element _ _ _ kids =>
      (fix first (l : list Node) : option Node :=
         match l with
         | [] => None
         | k :: rest =>
             if has_class cls k then Some k
             else match querySelector cls k with
                  | Some found => Some found
                  | None => first rest
                  end
         end) kids
  end.

(** The element after [querySelector('.' + cls).remove()]; [None] when no
    descendant matches. *)
Fixpoint detach_first (cls : string) (n : Node) : option Node :=
  match n with
  | Element t c x kids =>
      Element t c x <$>
      (fix first (l : list Node) : option (list Node) :=
         match l with
         | [] => None
         | k :: rest =>
             if has_class cls k then Some rest
             else match detach_first cls k with
                  | Some k' => Some (k' :: rest)
                  | None => cons k <$> first rest
                  end
         end) kids
  end.

(** Number of descendants that carry the class. *)
Fixpoint count_class (cls : string) (n : Node) : nat :=
  match n with
  | Element _ _ _ kids =>
      (fix total (l : list Node) : nat :=
         match l with
         | [] => 0
         | k :: rest =>
             ((if has_class cls k then 1 else 0) + count_class cls k + total rest)%nat
         end) kids
  end.

(** The same three walks over a list of siblings. *)
Definition querySelector_in (cls : string) : list Node → option Node :=
  fix first (l : list Node) : option Node :=
    match l with
    | [] => None
    | k :: rest =>
        if has_class cls k then Some k
        else match querySelector cls k with
             | Some found => Some found
             | None => first rest
             end
    end.

Definition detach_first_in (cls : string) : list Node → option (list Node) :=
  fix first (l : list Node) : option (list Node) :=
    match l with
    | [] => None
    | k :: rest =>
        if has_class cls k then Some rest
        else match detach_first cls k with
             | Some k' => Some (k' :: rest)
             | None => cons k <$> first rest
             end
    end.

Definition count_class_in (cls : string) : list Node → nat :=
  fix total (l : list Node) : nat :=
    match l with
    | [] => 0
    | k :: rest =>
        ((if has_class cls k then 1 else 0) + count_class cls k + total rest)%nat
    end.

(** Induction over a node and its descendants. *)
Fixpoint Node_descend (P : Node → Prop)
    (step : ∀ t c x kids, Forall P kids → P (Element t c x kids))
    (n : Node) : P n :=
  match n with
  | Element t c x kids =>
      step t c x kids
        ((fix all (l : list Node) : Forall P l :=
            match l with
            | [] => @List.Forall_nil Node P
            | k :: rest => @List.Forall_cons Node P k rest (Node_descend P step k) (all rest)
            end) kids)
  end.

Definition classList_add (cls : string) (n : Node) : Node :=
  match n with
  | Element t c x kids =>
      Element t (if bool_decide (cls ∈ c) then c else c ++ [cls]) x kids
  end.

Definition classList_remove (cls : string) (n : Node) : Node :=
  match n with
  | Element t c x kids => Element t (filter (λ y, y ≠ cls) c) x kids
  end.

Definition appendChild (n child : Node) : Node :=
  match n with
  | Element t c x kids => Element t c x (kids ++ [child])
  end.

(** The [span] that [updateBadge] creates. *)
Definition badge (count : Z) : Node :=
  Element "span" ["notification-badge"]
          (if bool_decide (99 < count)%Z then "99+" else pretty count) [].

(** [updateBadge(element, count)]; the result is the element as the call
    leaves it ([None] for a null element). *)
Definition updateBadge (element : option Node) (count : Z) : option Node :=
  match element with
  | None => None
  | Some e =>
      let e1 := match detach_first "notification-badge" e with
                | Some e' => e'
                | None => e
                end in
      if bool_decide (0 < count)%Z
      then Some (appendChild (classList_add "has-notification" e1) (badge count))
      else Some (classList_remove "has-notification" e1)
  end.

(** *** Strings, arrays and sets *)

(** [s.split(',')] *)
Fixpoint split (sep : Ascii.ascii) (s : string) : list string :=
  match s with
  | EmptyString => [""]
  | String c s' =>
      if decide (c = sep) then "" :: split sep s'
      else match split sep s' with
           | x :: rest => String c x :: rest
           | [] => [String c ""]
           end
  end.

(** Does the character occur in the string? *)
Fixpoint contains_char (c : Ascii.ascii) (s : string) : bool :=
  match s with
  | EmptyString => false
  | String a s' => bool_decide (a = c) || contains_char c s'
  end.

(** [a.join(',')] *)
Definition join (sep : string) (l : list string) : string := String.concat sep l.

Fixpoint insert_sorted (x : string) (l : list string) : list string :=
  match l with
  | [] => [x]
  | y :: l' => if String.leb x y then x :: l else y :: insert_sorted x l'
  end.

(** [a.sort()] on an array of strings. *)
Definition sort (l : list string) : list string := foldr insert_sorted [] l.

(** A [Set] of strings, in insertion order. *)
Definition Set_add (s : list string) (x : string) : list string :=
  if bool_decide (x ∈ s) then s else s ++ [x].
Definition new_Set (l : list string) : list string := foldl Set_add [] l.
Definition Set_has (s : list string) (x : string) : bool := bool_decide (x ∈ s).

(** *** The two checks *)

(** [data.unread_count || 0] *)
Definition unread_or_zero (v : option Prim) : Prim :=
  match v with
  | None => PNum 0
  | Some (PNum n) => PNum n
  | Some (PStr s) => if bool_decide (s = "") then PNum 0 else PStr s
  end.

Definition checkUnreadMessages (userId : string) : Prog Prim :=
  base ← readApiBase;
  response ← fetch (tostr_nullable base +:+ "/messages/user/" +:+ userId
                    +:+ "/unread-count") "GET";
  match response with
  | NetworkError =>
      console_log "Error checking unread messages:";; mret (PNum 0)
  | Response ok _ body =>
      if ok then
        match body with
        | NotJson => console_log "Error checking unread messages:";; mret (PNum 0)
        | JObj data => mret (unread_or_zero (data !! "unread_count"))
        | JArr _ => mret (PNum 0)
        end
      else mret (PNum 0)
  end.

(** One entry of [allCurrentMembers]. *)
Record Member : Type := mkMember {
  m_family_id : option Prim;
  m_user_id : option Prim
}.

(** [`${m.family_id}:${m.user_id}`] *)
Definition member_key (m : Member) : string :=
  tostr (m_family_id m) +:+ ":" +:+ tostr (m_user_id m).

(** The loop over the families; [None] when a request or a body throws. *)
Fixpoint collect_members (families : list (gmap string Prim))
    (allCurrentMembers : list Member) : Prog (option (list Member)) :=
  match families with
  | [] => mret (Some allCurrentMembers)
  | family :: rest =>
      base ← readApiBase;
      membersResponse ← fetch (tostr_nullable base +:+ "/family/"
                               +:+ tostr (family !! "family_id") +:+ "/members") "GET";
      match membersResponse with
      | NetworkError => mret None
      | Response ok _ body =>
          if ok then
            match body with
            | JArr members =>
                collect_members rest
                  (allCurrentMembers ++
                   map (λ m, mkMember (family !! "family_id") (m !! "user_id")) members)
            | _ => mret None
            end
          else collect_members rest allCurrentMembers
      end
  end.

Definition currentMembersKey (allCurrentMembers : list Member) : string :=
  join "," (sort (map member_key allCurrentMembers)).

(** The counting loop over [currentMemberIds]. *)
Definition count_new (lastMemberIds currentMemberIds : list string) : Z :=
  foldl (λ newMembersCount memberId,
           if negb (Set_has lastMemberIds memberId)
           then (newMembersCount + 1)%Z else newMembersCount)
        0%Z currentMemberIds.

Definition lastViewedKey (userId : string) : string := "family_members_" +:+ userId.

(** The [catch] block of [checkNewMembers], followed by [return 0]. *)
Definition checkNewMembers_catch : Prog Z :=
  console_log "Error checking new members:";; mret 0%Z.

Definition checkNewMembers (userId : string) : Prog Z :=
  base ← readApiBase;
  familiesResponse ← fetch (tostr_nullable base +:+ "/user/" +:+ userId
                            +:+ "/families") "GET";
  match familiesResponse with
  | NetworkError => checkNewMembers_catch
  | Response ok _ body =>
      if negb ok then mret 0%Z else
      match body with
      | NotJson => checkNewMembers_catch
      | JObj o =>
          match o !! "length" with
          | Some (PNum 0) => mret 0%Z
          | _ => checkNewMembers_catch
          end
      | JArr families =>
          if bool_decide (length families = 0)%nat then mret 0%Z else
          collected ← collect_members families [];
          match collected with
          | None => checkNewMembers_catch
          | Some allCurrentMembers =>
              let key := currentMembersKey allCurrentMembers in
              lastViewedMembers ← localStorage_getItem (lastViewedKey userId);
              if falsy lastViewedMembers then
                localStorage_setItem (lastViewedKey userId) key;;
                mret 0%Z
              else
                let lastMemberIds := new_Set (split ","%char (tostr_nullable lastViewedMembers)) in
                let currentMemberIds := new_Set (split ","%char key) in
                mret (count_new lastMemberIds currentMemberIds)
          end
      end
  end.

(** The requests of [checkNewMembers]: for the families of the user, and
    for the members of one family. *)
Definition families_request (base : option string) (userId : string) : Request :=
  mkRequest "GET" (tostr_nullable base +:+ "/user/" +:+ userId +:+ "/families").

Definition members_request (base : option string) (family : gmap string Prim) : Request :=
  mkRequest "GET" (tostr_nullable base +:+ "/family/"
                   +:+ tostr (family !! "family_id") +:+ "/members").

End Notifications.
Import Notifications.

(** ** user-header.js *)

Module UserHeader.

(** The click listener that [setupEventListeners] puts on [logoutBtn]. *)
Definition logoutBtn_click : Prog unit :=
  localStorage_removeItem "currentUser";;
  localStorage_removeItem "userFamilies";;
  localStorage_removeItem "selectedFamily";;
  navigate "index.html".

End UserHeader.

(** ** The family code view *)

Module FamilyCode.

(** State of the component and of the browser around it. A timer is the
    time left until it fires and the message its callback sets. *)
Record View : Type := mkView {
  message : string;
  timers : list (nat * string);
  clipboard : option string;
  errors : list string          (* console.error output *)
}.

(** [copyToClipboard(text)]; [write_ok] tells whether
    [navigator.clipboard.writeText] fulfils. *)
Definition copyToClipboard (write_ok : bool) (text : string) (v : View) : View :=
  if write_ok then
    {| message := "Family code copied to clipboard!";
       timers := timers v ++ [(3000%nat, "")];
       clipboard := Some text;
       errors := errors v |}
  else
    {| message := "Failed to copy to clipboard";
       timers := timers v;
       clipboard := clipboard v;
       errors := errors v ++ ["Failed to copy: "] |}.

(** The timers that are due within [ms] fire in the order they were set;
    the others have [ms] less to wait. *)
Definition advance (ms : nat) (v : View) : View :=
  let due := filter (λ t, (t.1 ≤ ms)%nat) (timers v) in
  let later := filter (λ t, ¬ (t.1 ≤ ms)%nat) (timers v) in
  {| message := foldl (λ _ t, t.2) (message v) due;
     timers := map (λ t, ((t.1 - ms)%nat, t.2)) later;
     clipboard := clipboard v;
     errors := errors v |}.

End FamilyCode.

(** ** Concrete pages, backends and networks *)

Module Examples.

(** A freshly loaded page with empty storages. *)
Definition page0 : Page := fresh ∅ ∅.

(** The JSON text of an object whose only property is [user_id], with
    the value 7: an opening brace, the name between double quotes
    (character 34), a colon, the number and a closing brace. *)
Definition user7_json : string :=
  "{" +:+ String "034" "user_id" +:+ String "034" ":7}".

(** The four session entries of a logged-in user. *)
Definition session4 : gmap string string :=
  <["currentUser" := user7_json]>
  (<["userFamilies" := "[]"]>
  (<["selectedFamily" := "{}"]>
  (<["mealCodeData" := "{}"]> ∅))).

(** What is left of them when the entry of the user is gone. *)
Definition session3 : gmap string string := delete "currentUser" session4.

(** A logged-in page with the API base published; both storages hold
    the session entries. *)
Definition page_logged_in : Page :=
  setApiBase "http://127.0.0.1:8900/api" (fresh session4 session4).

(** The platform of the example pages. Of the texts that these pages
    hand to [JSON.parse], [user7_json] is the text of the object with
    [user_id] 7, and the other, an entry cut short after the colon, is no
    JSON text. The ids that are encoded are decimal numbers, which
    [encodeURIComponent] leaves as they are. *)
#[export] Instance demo_platform : Platform := {|
  JSON_parse := λ s, if bool_decide (s = user7_json)
                     then Some {[ "user_id" := PNum 7 ]} else None;
  encodeURIComponent := λ s, s
|}.

(** Every request fails, or is answered with 404. *)
Definition net_down : Network := λ _, NetworkError.
Definition net_404 : Network := λ _, Response false 404 NotJson.

Definition result_page {A : Type} (r : Result A) : Page :=
  match r with Done p _ => p | Blocked p _ => p end.

(** A link of the header that shows a badge: an icon, then the badge. *)
Definition link_with_badge : Node :=
  Element "a" ["dropdown-item"; "has-notification"] "Messages"
    [Element "i" ["icon"] "" []; Element "span" ["notification-badge"] "3" []].


(** The family code view with no message and no timer. *)
Definition view0 : FamilyCode.View := FamilyCode.mkView "" [] None [].

(** A backend with one family, [F1], whose members are [members_of_F1]
    when [members_ok], and whose member list cannot be had otherwise. *)
Definition net_family (members_ok : bool) (members_of_F1 : list string) : Network :=
  λ r,
    if bool_decide (req_url r = "http://127.0.0.1:8900/api/user/u1/families")
    then Response true 200 (JArr [ {[ "family_id" := PStr "F1" ]} ])
    else if bool_decide (req_url r = "http://127.0.0.1:8900/api/family/F1/members")
    then if members_ok
         then Response true 200 (JArr (map (λ u, {[ "user_id" := PStr u ]}) members_of_F1))
         else Response false 500 NotJson
    else Response false 404 NotJson.

(** A backend on which the user belongs to no family. *)
Definition net_no_family : Network :=
  λ r, Response true 200 (JArr []).

(** A page with the API base published and [baseline] stored for [u1]. *)
Definition page_with_baseline (baseline : option string) : Page :=
  setApiBase "http://127.0.0.1:8900/api"
    (fresh ∅ (match baseline with
              | Some b => {[ "family_members_u1" := b ]}
              | None => ∅
              end)).

(** The page is served by a development server; only the backend on
    127.0.0.1:8900 is up and answers the health request after 10 ms. *)
Definition loc_dev : Location := mkLocation "http:" "http://localhost:3000".

Definition health_dev : string → Probe :=
  λ url, if bool_decide (url = "http://127.0.0.1:8900/api/health")
         then Replies 10 true else Hangs.

(** Every backend answers; the one on localhost:8765 is the quickest. *)
Definition health_all : string → Probe :=
  λ url, if bool_decide (url = "http://localhost:8765/api/health")
         then Replies 5 true else Replies 40 true.

(** No backend is up. *)
Definition health_none : string → Probe := λ _, Fails 3.

End Examples.

(** ** notifications.js: acknowledging, refreshing and polling *)

Module Refresh.

Definition read_all_request (base : option string) (userId : string) : Request :=
  mkRequest "POST" (tostr_nullable base +:+ "/messages/user/" +:+ userId +:+ "/read-all").

(** The two branches of [clearNotification(type, userId)], each with
    its [try] and [catch]: what the function does before its last
    statement. *)
Definition acknowledge (type userId : string) : Prog unit :=
  if bool_decide (type = "messages") then
    base ← readApiBase;
    response ← fetch (tostr_nullable base +:+ "/messages/user/" +:+ userId
                      +:+ "/read-all") "POST";
    match response with
    | NetworkError => console_log "Error clearing messages:"
    | Response _ _ _ => mret ()
    end
  else if bool_decide (type = "family") then
    base ← readApiBase;
    familiesResponse ← fetch (tostr_nullable base +:+ "/user/" +:+ userId
                              +:+ "/families") "GET";
    match familiesResponse with
    | NetworkError => console_log "Error clearing family notification:"
    | Response ok _ body =>
        if ok then
          match body with
          | JArr families =>
              collected ← collect_members families [];
              match collected with
              | None => console_log "Error clearing family notification:"
              | Some allCurrentMembers =>
                  localStorage_setItem (lastViewedKey userId)
                                       (currentMembersKey allCurrentMembers)
              end
          | _ => console_log "Error clearing family notification:"
          end
        else mret ()
    end
  else mret ().

(** The three elements that carry badges; [None] when the page has no
    such element. They are taken to be three separate elements, none
    inside another. *)
Record Targets : Type := mkTargets {
  messageLink : option Node;        (* a[href="messages.html"] *)
  manageFamilyLink : option Node;   (* a[href="manage_family.html"] *)
  userProfileBtn : option Node      (* #userProfileBtn *)
}.

(** The three badge updates of [updateAllNotifications], for counts that
    are numbers. *)
Definition render_counts (unreadMessages newMembers : Z) (d : Targets) : Targets :=
  {| messageLink := updateBadge (messageLink d) unreadMessages;
     manageFamilyLink := updateBadge (manageFamilyLink d) newMembers;
     userProfileBtn :=
       let totalNotifications := (unreadMessages + newMembers)%Z in
       updateBadge (userProfileBtn d) totalNotifications |}.

(** How a call of [updateAllNotifications] ends. A count that the backend
    sent as a string would be compared and added after JavaScript's
    conversion of strings to numbers, which is not part of this
    development: such a run ends in [NotNumeric], with nothing said about
    the badges. *)
Inductive Refreshed : Type :=
| Skipped                                   (* [if (!userId) return;] *)
| Rendered (d : Targets) (unreadMessages newMembers : Z)
| NotNumeric (unread_count : string).

(** [updateAllNotifications(userId)]. The two checks started by
    [Promise.all] issue their requests in this order and share no state
    but the console. *)
Definition updateAllNotifications (userId : string) (d : Targets) : Prog Refreshed :=
  if bool_decide (userId = "") then mret Skipped else
  unreadMessages ← checkUnreadMessages userId;
  newMembers ← checkNewMembers userId;
  match unreadMessages with
  | PNum n => mret (Rendered (render_counts n newMembers d) n newMembers)
  | PStr s => mret (NotNumeric s)
  end.

(** [clearNotification(type, userId)]: the branch for the type, then
    [updateAllNotifications(userId)], for every type. The function does
    not await that last call; the run below goes on until the refresh it
    has started is finished. *)
Definition clearNotification (type userId : string) (d : Targets) : Prog Refreshed :=
  acknowledge type userId;;
  updateAllNotifications userId d.

(** The request by which a refresh asks for the unread count. *)
Definition unread_request (base : option string) (userId : string) : Request :=
  mkRequest "GET" (tostr_nullable base +:+ "/messages/user/" +:+ userId +:+ "/unread-count").

(** *** The polling timer *)

(** What the poller reads and writes: its module variable, the interval
    timers of the window (handle and the user id its callback holds), the
    next handle [setInterval] gives out, the ids of the style elements in
    the document head, and the calls of [updateAllNotifications] started so
    far (the user ids, oldest first). *)
Record Poller : Type := mkPoller {
  notificationCheckInterval : option nat;
  intervals : list (nat * string);
  next_handle : nat;
  head_styles : list string;
  started : list string
}.

Definition idle : Poller :=
  {| notificationCheckInterval := None; intervals := []; next_handle := 1;
     head_styles := []; started := [] |}.

Definition addBadgeStyles (head : list string) : list string :=
  if bool_decide ("notification-badge-styles" ∈ head) then head
  else head ++ ["notification-badge-styles"].

Definition clearInterval (h : nat) (l : list (nat * string)) : list (nat * string) :=
  filter (λ t, t.1 ≠ h) l.

Definition startNotificationCheck (userId : string) (s : Poller) : Poller :=
  if bool_decide (userId = "") then s else
  let kept := match notificationCheckInterval s with
              | Some h => clearInterval h (intervals s)
              | None => intervals s
              end in
  {| notificationCheckInterval := Some (next_handle s);
     intervals := kept ++ [(next_handle s, userId)];
     next_handle := S (next_handle s);
     head_styles := addBadgeStyles (head_styles s);
     started := started s ++ [userId] |}.

Definition stopNotificationCheck (s : Poller) : Poller :=
  match notificationCheckInterval s with
  | Some h =>
      {| notificationCheckInterval := None;
         intervals := clearInterval h (intervals s);
         next_handle := next_handle s;
         head_styles := head_styles s;
         started := started s |}
  | None => s
  end.

(** Thirty seconds pass: every interval timer of the window runs its
    callback once. *)
Definition after_30s (s : Poller) : Poller :=
  {| notificationCheckInterval := notificationCheckInterval s;
     intervals := intervals s;
     next_handle := next_handle s;
     head_styles := head_styles s;
     started := started s ++ map snd (intervals s) |}.

(** Calls from the page. *)
Inductive Call : Type :=
| Start (userId : string)
| Stop
| Wait30.

Definition call (s : Poller) (c : Call) : Poller :=
  match c with
  | Start u => startNotificationCheck u s
  | Stop => stopNotificationCheck s
  | Wait30 => after_30s s
  end.

End Refresh.

(** ** user-header.js: the listeners of the header *)

Module HeaderEvents.

Inductive Listener : Type :=
| ToggleDropdown    (* on the profile button: stopPropagation, toggle 'show' *)
| CloseIfOutside    (* on the document: remove 'show' unless the click is in the button *)
| LogoutClick.      (* on the logout link *)

Record Header : Type := mkHeader {
  has_userProfileBtn : bool;
  has_userDropdown : bool;
  has_logoutBtn : bool;
  show : bool;                        (* userDropdown has the class 'show' *)
  on_button : list Listener;
  on_document : list Listener;
  on_logout : list Listener
}.

(** The header as [addUserHeader] inserts it: the three elements, the
    dropdown closed, no listeners. *)
Definition inserted : Header :=
  mkHeader true true true false [] [] [].

Definition setupEventListeners (h : Header) : Header :=
  let h1 :=
    if has_userProfileBtn h && has_userDropdown h then
      {| has_userProfileBtn := has_userProfileBtn h;
         has_userDropdown := has_userDropdown h;
         has_logoutBtn := has_logoutBtn h;
         show := show h;
         on_button := on_button h ++ [ToggleDropdown];
         on_document := on_document h ++ [CloseIfOutside];
         on_logout := on_logout h |}
    else h in
  if has_logoutBtn h1 then
    {| has_userProfileBtn := has_userProfileBtn h1;
       has_userDropdown := has_userDropdown h1;
       has_logoutBtn := has_logoutBtn h1;
       show := show h1;
       on_button := on_button h1;
       on_document := on_document h1;
       on_logout := on_logout h1 ++ [LogoutClick] |}
  else h1.

(** Where a click lands: in the profile button, on the logout link (which
    is in the dropdown, outside the button), or anywhere else. *)
Inductive Target : Type := InButton | OnLogoutLink | Elsewhere.

Definition set_show (b : bool) (h : Header) : Header :=
  {| has_userProfileBtn := has_userProfileBtn h;
     has_userDropdown := has_userDropdown h;
     has_logoutBtn := has_logoutBtn h;
     show := b;
     on_button := on_button h;
     on_document := on_document h;
     on_logout := on_logout h |}.

(** One listener runs; the boolean tells whether it stopped the
    propagation of the event. *)
Definition listen (t : Target) (l : Listener) (st : Header * Page) : Header * Page * bool :=
  let '(h, p) := st in
  match l with
  | ToggleDropdown => (set_show (negb (show h)) h, p, true)
  | CloseIfOutside =>
      match t with
      | InButton => (h, p, false)
      | _ => (set_show false h, p, false)
      end
  | LogoutClick =>
      (h, match run (λ _, NetworkError) UserHeader.logoutBtn_click p with
          | Done p' _ => p'
          | Blocked p' _ => p'
          end, false)
  end.

(** All listeners of one element run, in the order they were added. *)
Definition listen_all (t : Target) (ls : list Listener) (st : Header * Page)
  : Header * Page * bool :=
  foldl (λ acc l, let '(st', stopped) := acc in
                  let '(st'', s) := listen t l st' in (st'', stopped || s))
        (st, false) ls.

(** A click: the listeners of the element clicked, then, unless one of
    them stopped the propagation, those of the document. *)
Definition click (t : Target) (st : Header * Page) : Header * Page :=
  let on_target :=
    match t with
    | InButton => on_button (fst st)
    | OnLogoutLink => on_logout (fst st)
    | Elsewhere => []
    end in
  let '(st1, stopped) := listen_all t on_target st in
  if stopped then st1 else fst (listen_all t (on_document (fst st1)) st1).

End HeaderEvents.

(** ** The family code view: which family is shown *)

Module FamilyView.
Import FamilyCode.

Record Family : Type := mkFamily {
  family_id : string;
  family_name : string;
  family_code : string
}.

Record Component : Type := mkComponent {
  family : option Family;
  isLoading : bool;
  view : View
}.

(** The state before the effect runs. *)
Definition initial : Component :=
  mkComponent None true (mkView "" [] None []).

Definition truthy (v : option string) : bool := negb (falsy v).

Definition set_message (msg : string) (v : View) : View :=
  {| message := msg; timers := timers v; clipboard := clipboard v; errors := errors v |}.

(** The effect that runs once after the first render. [urlParams] holds
    what [URLSearchParams.get] returns for each name. *)
Definition useEffect (urlParams localStorage : gmap string string) (c : Component) : Component :=
  let familyId := urlParams !! "family_id" in
  let familyName := urlParams !! "family_name" in
  let familyCode := urlParams !! "family_code" in
  if truthy familyId && truthy familyName && truthy familyCode then
    mkComponent (Some (mkFamily (tostr_nullable familyId) (tostr_nullable familyName)
                                (tostr_nullable familyCode)))
                false (view c)
  else
    let storedFamilyId := localStorage !! "family_id" in
    let storedFamilyName := localStorage !! "family_name" in
    let storedFamilyCode := localStorage !! "family_code" in
    if truthy storedFamilyId && truthy storedFamilyName && truthy storedFamilyCode then
      mkComponent (Some (mkFamily (tostr_nullable storedFamilyId)
                                  (tostr_nullable storedFamilyName)
                                  (tostr_nullable storedFamilyCode)))
                  false (view c)
    else
      mkComponent (family c) false
        (set_message "No family information found. Please create or join a family first."
                     (view c)).

(** Which of the three returns of the component is rendered. *)
Inductive Screen : Type :=
| Loading
| NoFamilyFound
| FamilyCard (f : Family) (message : string).

Definition render (c : Component) : Screen :=
  if isLoading c then Loading
  else match family c with
       | None => NoFamilyFound
       | Some f => FamilyCard f (message (view c))
       end.

End FamilyView.

(** ** Observations and further cases *)

Module Scenarios.

Definition returned {A : Type} (r : Result A) : option A :=
  match r with Done _ a => Some a | Blocked _ _ => None end.

Definition page_after {A : Type} (r : Result A) : Page :=
  match r with Done p _ => p | Blocked p _ => p end.

(** [a] sorts before or with [b] in the order of [sort]. *)
Definition str_le (a b : string) : Prop := String.leb a b = true.

(** A backend that confirms every user and reports three unread
    messages. *)
Definition net_ok : Network :=
  λ r, Response true 200 (JObj {[ "unread_count" := PNum 3 ]}).

(** A page whose cached session entry was cut short. *)
Definition page_garbled : Page :=
  setApiBase "http://127.0.0.1:8900/api" (fresh {[ "currentUser" := "{user_id:" ]} ∅).

(** A page that has [base] as its API base and nothing else. *)
Definition page_at (base : option string) : Page :=
  mkPage base base false true ∅ ∅ None [] [].

(** What the loop over [families] collects from the backend; [None] when
    it throws. *)
Definition collected (net : Network) (base : option string)
    (families : list (gmap string Prim)) : option (list Member) :=
  match run net (collect_members families []) (page_at base) with
  | Done _ r => r
  | Blocked _ _ => None
  end.

(** The membership that a check of [userId] compares with the baseline;
    [None] when the check returns before the comparison. *)
Definition current_membership (net : Network) (base : option string)
    (userId : string) : option (list Member) :=
  match net (families_request base userId) with
  | Response true _ (JArr (family :: families)) => collected net base (family :: families)
  | _ => None
  end.

End Scenarios.

(** * Properties *)

Section Run.
Context {A B : Type}.
Implicit Types (net : Network) (p : Page).

Lemma run_bind net (prog : Prog A) (f : A → Prog B) p :
  run net (prog ≫= f) p =
  match run net prog p with
  | Done p' a => run net (f a) p'
  | Blocked p' rest => Blocked p' (rest ≫= f)
  end.
Proof.
  revert p. induction prog as [a|k IH|k IH|r k IH|key k IH|key k IH|key k IH|key v k IH|key k IH|msg k IH|h k IH]; intros p; cbn; try done.
  - apply IH.
  - destruct (API_READY p); [apply IH | done].
  - apply IH.
  - apply IH.
  - apply IH.
Qed.
End Run.

(** ** The published API base *)

Section ApiBase.
Implicit Types (net : Network) (p : Page) (a b base : string).

Lemma setApiBase_ready base p :
  resolveApiReady p = negb (API_READY p) → API_READY (setApiBase base p) = true.
Proof. cbn. intros ->. by destruct (API_READY p). Qed.

Lemma run_await_if_unset_set net p base :
  API_BASE p = Some base → base ≠ "" →
  run net await_if_unset p = Done p ().
Proof.
  intros Hb Hne. cbn. rewrite Hb. cbn.
  rewrite bool_decide_eq_false_2; done.
Qed.

Lemma run_getApiBase_set net p base :
  API_BASE p = Some base → base ≠ "" →
  run net getApiBase p = Done p (Some base).
Proof.
  intros Hb Hne. unfold getApiBase. rewrite run_bind.
  rewrite (run_await_if_unset_set _ _ base) by done. cbn. by rewrite Hb.
Qed.

(** A reader that arrives before the base is published is suspended, and
    resumes with whatever base is published when it does. *)
Lemma run_getApiBase_unset net ss ls :
  ∃ rest, run net getApiBase (fresh ss ls) = Blocked (fresh ss ls) rest
          ∧ ∀ p, run net rest p = Done p (API_BASE p).
Proof. eexists. split; [reflexivity|]. intros p. reflexivity. Qed.

(** C2 (as amended): [setApiBase] is last-writer-wins on the value: after
    [setApiBase a] and then [setApiBase b], both [API_BASE] and
    [window.API_BASE] hold [b], and a reader gets [b]. Only the readiness
    signal is once-only: the first call on a page whose resolver is still
    set fulfils [API_READY] and clears the resolver, so that a reader who
    was waiting goes on; the second call leaves [API_READY] as the first
    left it and the resolver cleared. A repeated call with the same base
    changes nothing. *)
Theorem setApiBase_last_writer_wins net a b p :
  b ≠ "" →
  let p1 := setApiBase a p in
  let p2 := setApiBase b p1 in
  API_BASE p2 = Some b ∧ window_API_BASE p2 = Some b
  ∧ run net getApiBase p2 = Done p2 (Some b)
  ∧ (resolveApiReady p = true →
     API_READY p1 = true
     ∧ run net awaitApiReady p1 = Done p1 ()
     ∧ API_READY p2 = true)
  ∧ (resolveApiReady p = false → API_READY p1 = API_READY p)
  ∧ resolveApiReady p1 = false
  ∧ API_READY p2 = API_READY p1 ∧ resolveApiReady p2 = false
  ∧ setApiBase a p1 = p1.
Proof.
  intros Hb p1 p2.
  split; [done|]. split; [done|].
  split; [by apply (run_getApiBase_set _ _ b)|].
  split.
  { intros Hres. assert (API_READY p1 = true) as Hr.
    { unfold p1; cbn. rewrite Hres. apply orb_true_r. }
    split; [done|]. split.
    - cbn [awaitApiReady run]. by rewrite Hr.
    - unfold p2; cbn [setApiBase API_READY]. fold p1. by rewrite Hr. }
  split; [intros Hres; unfold p1; cbn; rewrite Hres; apply orb_false_r|].
  split; [done|].
  split; [cbn; by rewrite orb_false_r|].
  split; [done|].
  unfold p1, setApiBase; cbn. by rewrite orb_false_r.
Qed.

Lemma setApiBase_last_writer_wins_witness :
  API_READY Examples.page0 = false
  ∧ API_READY (setApiBase "http://127.0.0.1:8900/api" Examples.page0) = true
  ∧ API_BASE (setApiBase "http://localhost:8000/api"
                (setApiBase "http://127.0.0.1:8900/api" Examples.page0))
    = Some "http://localhost:8000/api"
  ∧ API_READY (setApiBase "http://localhost:8000/api"
                 (setApiBase "http://127.0.0.1:8900/api" Examples.page0)) = true.
Proof.
  destruct (setApiBase_last_writer_wins Examples.net_down
              "http://127.0.0.1:8900/api" "http://localhost:8000/api"
              Examples.page0)
    as (Hbase & _ & _ & Hready & _); [done|].
  destruct (Hready eq_refl) as (Hr1 & _ & Hr2).
  split; [reflexivity|]. split; [exact Hr1|]. split; [exact Hbase|exact Hr2].
Defined.

(** C2, as stated, fails: a second [setApiBase] with another base changes
    the value that readers observe. *)
Lemma setApiBase_second_call_changes_value :
  ¬ (∀ a b p, API_BASE (setApiBase b (setApiBase a p)) = API_BASE (setApiBase a p)).
Proof.
  intros H. specialize (H "http://127.0.0.1:8900/api" "http://localhost:8000/api" Examples.page0).
  discriminate H.
Qed.
End ApiBase.

(** ** The auth guard *)

Section AuthGuard.
Context `{Platform}.
Implicit Types (net : Network) (p : Page) (base userData : string).

Lemma run_clearUserData net p : run net clearUserData p = Done (cleared p) ().
Proof. reflexivity. Qed.

Lemma cleared_session_keys p k :
  k ∈ session_keys → sessionStorage (cleared p) !! k = None.
Proof.
  unfold session_keys. rewrite !elem_of_cons, elem_of_nil.
  intros [->|[->|[->|[->|[]]]]]; cbn; by simplify_map_eq.
Qed.

Lemma cleared_other_keys p k :
  k ∉ session_keys → sessionStorage (cleared p) !! k = sessionStorage p !! k.
Proof.
  unfold session_keys. rewrite !not_elem_of_cons. intros (?&?&?&?&_).
  cbn. by rewrite !lookup_delete_ne.
Qed.

Lemma run_checkUserAuth_unconfirmed net p base userData user :
  API_BASE p = Some base → base ≠ "" →
  sessionStorage p !! "currentUser" = Some userData → userData ≠ "" →
  JSON_parse userData = Some user →
  unconfirmed net (lookup_request base user) →
  ∃ p', run net checkUserAuth p = Done (cleared p') None
        ∧ sessionStorage p' = sessionStorage p
        ∧ localStorage p' = localStorage p
        ∧ requests p' = requests p ++ [lookup_request base user]
        ∧ location_href p' = location_href p.
Proof.
  intros Hb Hne Hu Hune Hparse Hnet.
  unfold checkUserAuth. rewrite run_bind, (run_await_if_unset_set _ _ base) by done.
  cbn [run mbind prog_bind bind sessionStorage_getItem]. unfold getTabKey. rewrite Hu.
  cbn [falsy]. rewrite bool_decide_eq_false_2 by done. cbn [tostr_nullable].
  rewrite Hparse, run_bind, (run_getApiBase_set _ _ base) by done.
  cbn [run mbind prog_bind bind fetch tostr_nullable].
  unfold unconfirmed, lookup_request in Hnet.
  destruct (net _) as [|ok st body] eqn:Hr.
  - eexists (log_console _ (log_request _ p)). split; [reflexivity|]. done.
  - subst ok. eexists (log_request _ p). split; [reflexivity|]. done.
Qed.

(** A cached entry that does not parse takes the same [catch] block: the
    keys are removed and no request is sent. *)
Lemma run_checkUserAuth_unparsable net p base userData :
  API_BASE p = Some base → base ≠ "" →
  sessionStorage p !! "currentUser" = Some userData → userData ≠ "" →
  JSON_parse userData = None →
  run net checkUserAuth p
  = Done (cleared (log_console "Error checking user auth:" p)) None.
Proof.
  intros Hb Hne Hu Hune Hparse.
  unfold checkUserAuth. rewrite run_bind, (run_await_if_unset_set _ _ base) by done.
  cbn [run mbind prog_bind bind sessionStorage_getItem]. unfold getTabKey. rewrite Hu.
  cbn [falsy]. rewrite bool_decide_eq_false_2 by done. cbn [tostr_nullable].
  by rewrite Hparse.
Qed.

(** Called before the API base is published, [checkUserAuth] and
    [initAuth] are suspended with the page unchanged; resumed on a page
    that has the base, they do what a call on that page does. *)
Lemma checkUserAuth_suspends_then_resumes net p :
  falsy (API_BASE p) = true → API_READY p = false →
  ∃ rest, run net checkUserAuth p = Blocked p rest
          ∧ ∀ p2 base, API_BASE p2 = Some base → base ≠ "" →
                       run net rest p2 = run net checkUserAuth p2.
Proof.
  intros Hf Hr. unfold checkUserAuth.
  assert (Hawait : run net await_if_unset p = Blocked p (Ret ())).
  { cbn. rewrite Hf. cbn. by rewrite Hr. }
  rewrite run_bind, Hawait.
  eexists. split; [reflexivity|].
  intros p2 base Hb Hne.
  rewrite (run_bind net await_if_unset), (run_await_if_unset_set _ _ base) by done.
  reflexivity.
Qed.

Lemma initAuth_suspends_then_resumes net p onSuccess onError :
  falsy (API_BASE p) = true → API_READY p = false →
  ∃ rest, run net (initAuth onSuccess onError) p = Blocked p rest
          ∧ ∀ p2 base, API_BASE p2 = Some base → base ≠ "" →
                       run net rest p2 = run net (initAuth onSuccess onError) p2.
Proof.
  intros Hf Hr. unfold initAuth.
  assert (Hawait : run net await_if_unset p = Blocked p (Ret ())).
  { cbn. rewrite Hf. cbn. by rewrite Hr. }
  rewrite run_bind, Hawait.
  eexists. split; [reflexivity|].
  intros p2 base Hb Hne.
  rewrite (run_bind net await_if_unset), (run_await_if_unset_set _ _ base) by done.
  reflexivity.
Qed.
(** C4: when the backend does not confirm the cached user (the lookup
    request fails or the response is not a success), [checkUserAuth]
    sends that one request and returns null with all four session keys
    removed, and [initAuth] continues with the failure path from that
    state: the caller's [onError], or, when there is none, the redirect
    to the login page. A call made while the API base is not yet
    published, as at page load, is suspended, and does the same once it
    resumes on the page that has the base. *)
Theorem auth_guard_rejects_unconfirmed_session
    net p base userData user onSuccess onError :
  API_BASE p = Some base → base ≠ "" →
  sessionStorage p !! "currentUser" = Some userData → userData ≠ "" →
  JSON_parse userData = Some user →
  unconfirmed net (lookup_request base user) →
  ∃ p', run net checkUserAuth p = Done p' None
        ∧ requests p' = requests p ++ [lookup_request base user]
        ∧ (∀ k, k ∈ session_keys → sessionStorage p' !! k = None)
        ∧ run net (initAuth onSuccess onError) p = run net (failure_path onError) p'
        ∧ (onError = None →
           ∃ p'', run net (initAuth onSuccess onError) p = Done p'' ()
                  ∧ location_href p'' = Some "index.html"
                  ∧ ∀ k, k ∈ session_keys → sessionStorage p'' !! k = None)
        ∧ (∀ q, falsy (API_BASE q) = true → API_READY q = false →
           ∃ rest rest',
             run net checkUserAuth q = Blocked q rest
             ∧ run net rest p = Done p' None
             ∧ run net (initAuth onSuccess onError) q = Blocked q rest'
             ∧ run net rest' p = run net (failure_path onError) p').
Proof.
  intros Hb Hne Hu Hune Hparse Hnet.
  destruct (run_checkUserAuth_unconfirmed net p base userData user)
    as (p1 & Hrun & Hss & Hls & Hreq & Hhref); try done.
  exists (cleared p1). split; [done|]. split; [done|].
  split; [apply cleared_session_keys|].
  assert (Hinit : run net (initAuth onSuccess onError) p
                  = run net (failure_path onError) (cleared p1)).
  { unfold initAuth. rewrite run_bind, (run_await_if_unset_set _ _ base) by done.
    rewrite run_bind, Hrun. reflexivity. }
  split; [done|]. split.
  - intros ->. rewrite Hinit. eexists. split; [reflexivity|]. split; [done|].
    intros k Hk. apply (cleared_session_keys (cleared p1) k Hk).
  - intros q Hf Hr.
    destruct (checkUserAuth_suspends_then_resumes net q Hf Hr) as (rest & Hq & Hres).
    destruct (initAuth_suspends_then_resumes net q onSuccess onError Hf Hr)
      as (rest' & Hq' & Hres').
    exists rest, rest'. split; [done|]. split; [by rewrite (Hres p base)|].
    split; [done|]. by rewrite (Hres' p base).
Qed.

(** C10: with no entry under [currentUser], [checkUserAuth] returns null
    and leaves the page exactly as it was: no request is sent and no
    storage key is removed. Before the API base is published the call is
    suspended, with the page unchanged, and its remainder does the same
    on the page it resumes on. *)
Theorem checkUserAuth_without_session_is_inert net p :
  sessionStorage p !! "currentUser" = None →
  run net checkUserAuth p = Done p None
  ∨ ∃ rest, run net checkUserAuth p = Blocked p rest
            ∧ ∀ p2, sessionStorage p2 !! "currentUser" = None →
                    run net rest p2 = Done p2 None.
Proof.
  intros Hu. unfold checkUserAuth, await_if_unset, getTabKey.
  cbn [run mbind prog_bind bind readApiBase].
  destruct (falsy (API_BASE p)) eqn:Hf; cbn.
  - destruct (API_READY p) eqn:Hr.
    + left. by rewrite Hu.
    + right. eexists. split; [reflexivity|]. intros p2 Hu2. cbn. by rewrite Hu2.
  - left. by rewrite Hu.
Qed.
End AuthGuard.

Lemma auth_guard_rejects_unconfirmed_session_witness :
  sessionStorage Examples.page_logged_in !! "mealCodeData" = Some "{}"
  ∧ ∃ p', run Examples.net_404 (@checkUserAuth Examples.demo_platform)
               Examples.page_logged_in = Done p' None
          ∧ requests p' = [mkRequest "GET" "http://127.0.0.1:8900/api/user/7"]
          ∧ (∀ k, k ∈ session_keys → sessionStorage p' !! k = None)
          ∧ ∃ rest, run Examples.net_404 (@checkUserAuth Examples.demo_platform)
                        (fresh Examples.session4 Examples.session4)
                    = Blocked (fresh Examples.session4 Examples.session4) rest
                    ∧ run Examples.net_404 rest Examples.page_logged_in = Done p' None.
Proof.
  split; [reflexivity|].
  destruct (@auth_guard_rejects_unconfirmed_session Examples.demo_platform
              Examples.net_404 Examples.page_logged_in
              "http://127.0.0.1:8900/api" Examples.user7_json {[ "user_id" := PNum 7 ]}
              None None)
    as (p' & Hrun & Hreq & Hkeys & _ & _ & Hearly).
  - reflexivity.
  - discriminate.
  - reflexivity.
  - discriminate.
  - reflexivity.
  - reflexivity.
  - exists p'. split; [exact Hrun|]. split; [exact Hreq|]. split; [exact Hkeys|].
    destruct (Hearly (fresh Examples.session4 Examples.session4) eq_refl eq_refl)
      as (rest & _ & Hblocked & Hresumed & _).
    exists rest. split; [exact Hblocked|exact Hresumed].
Defined.

Lemma checkUserAuth_without_session_is_inert_witness :
  sessionStorage (setApiBase "http://127.0.0.1:8900/api" (fresh Examples.session3 ∅))
  = <["userFamilies" := "[]"]> (<["selectedFamily" := "{}"]> (<["mealCodeData" := "{}"]> ∅))
  ∧ run Examples.net_down (@checkUserAuth Examples.demo_platform)
        (setApiBase "http://127.0.0.1:8900/api" (fresh Examples.session3 ∅))
    = Done (setApiBase "http://127.0.0.1:8900/api" (fresh Examples.session3 ∅)) None.
Proof.
  split; [vm_compute; reflexivity|].
  destruct (@checkUserAuth_without_session_is_inert Examples.demo_platform
              Examples.net_down
              (setApiBase "http://127.0.0.1:8900/api" (fresh Examples.session3 ∅)) eq_refl)
    as [Hd|(rest & Hb & _)].
  - exact Hd.
  - discriminate Hb.
Defined.

(** ** The new-member check *)

Section NewMembers.
Implicit Types (net : Network) (p : Page) (userId : string).

(** The loop over the families always finishes; it sends requests and
    touches nothing else. *)
Lemma run_collect_members net families :
  ∀ acc p, ∃ p' r more,
    run net (collect_members families acc) p = Done p' r
    ∧ requests p' = requests p ++ more
    ∧ localStorage p' = localStorage p
    ∧ sessionStorage p' = sessionStorage p
    ∧ API_BASE p' = API_BASE p.
Proof.
  induction families as [|family rest IH]; intros acc p.
  - exists p, (Some acc), []. cbn. by rewrite app_nil_r.
  - cbn [collect_members run mbind prog_bind bind readApiBase fetch].
    fold (members_request (API_BASE p) family).
    destruct (net _) as [|[] st body].
    + eexists _, None, [_]. cbn. done.
    + destruct body as [|o|members].
      * eexists _, None, [_]. cbn. done.
      * eexists _, None, [_]. cbn. done.
      * destruct (IH (acc ++ map (λ m, mkMember (family !! "family_id") (m !! "user_id")) members)
                    (log_request (members_request (API_BASE p) family) p))
          as (p' & r & more & Hrun & Hreq & Hls & Hss & Hb).
        exists p', r, (members_request (API_BASE p) family :: more).
        split; [exact Hrun|].
        rewrite Hreq. cbn. by rewrite <- app_assoc.
    + destruct (IH acc (log_request (members_request (API_BASE p) family) p))
          as (p' & r & more & Hrun & Hreq & Hls & Hss & Hb).
      exists p', r, (members_request (API_BASE p) family :: more).
      split; [exact Hrun|].
      rewrite Hreq. cbn. by rewrite <- app_assoc.
Qed.

(** [checkNewMembers] always finishes, its first request is the one for
    the user's families, and it either leaves [localStorage] alone or
    writes the user's baseline key. *)
Lemma run_checkNewMembers net userId p :
  ∃ p' n more,
    run net (checkNewMembers userId) p = Done p' n
    ∧ requests p' = requests p ++ families_request (API_BASE p) userId :: more
    ∧ sessionStorage p' = sessionStorage p
    ∧ (localStorage p' = localStorage p
       ∨ (n = 0%Z ∧ falsy (localStorage p !! lastViewedKey userId) = true
          ∧ ∃ key, localStorage p' = <[lastViewedKey userId := key]> (localStorage p)))
    ∧ (falsy (localStorage p !! lastViewedKey userId) = true → n = 0%Z).
Proof.
  unfold checkNewMembers.
  cbn [run mbind prog_bind bind readApiBase fetch]. fold (families_request (API_BASE p) userId).
  destruct (net _) as [|[] st body]; cbn [negb].
  - eexists _, _, []. split; [reflexivity|]. cbn. auto.
  - destruct body as [|o|families].
    + eexists _, _, []. split; [reflexivity|]. cbn. auto.
    + destruct (o !! "length") as [[[| |]|]|]; eexists _, _, []; (split; [reflexivity|]); cbn; auto.
    + case_bool_decide as Hlen.
      * eexists _, _, []. split; [reflexivity|]. cbn. auto.
      * destruct (run_collect_members net families [] (log_request (families_request (API_BASE p) userId) p))
          as (p1 & r & more & Hrun & Hreq & Hls & Hss & Hb).
        cbn in Hreq, Hls, Hss, Hb.
        change (bind ?x ?f) with (x ≫= f). rewrite run_bind, Hrun.
        destruct r as [ms|].
        -- cbn [run mbind prog_bind bind localStorage_getItem]. rewrite Hls.
           destruct (falsy (localStorage p !! lastViewedKey userId)) eqn:Hf.
           ++ eexists _, _, more. split; [reflexivity|]. cbn.
              rewrite Hreq, Hss, Hls. cbn. rewrite <- app_assoc. repeat split; eauto.
           ++ eexists _, _, more. split; [reflexivity|].
              rewrite Hreq, Hss, Hls. cbn. rewrite <- app_assoc. repeat split; auto. done.
        -- eexists _, _, more. split; [reflexivity|]. cbn.
           rewrite Hreq, Hss, Hls. cbn. rewrite <- app_assoc. auto.
  - eexists _, _, []. split; [reflexivity|]. cbn. auto.
Qed.

Lemma run_checkNewMembers_collected net userId p st families p1 ms :
  net (families_request (API_BASE p) userId) = Response true st (JArr families) →
  families ≠ [] →
  run net (collect_members families [])
      (log_request (families_request (API_BASE p) userId) p) = Done p1 (Some ms) →
  run net (checkNewMembers userId) p =
    if falsy (localStorage p !! lastViewedKey userId)
    then Done (set_localStorage (insert (lastViewedKey userId) (currentMembersKey ms)) p1) 0%Z
    else Done p1 (count_new
                    (new_Set (split "," (tostr_nullable (localStorage p !! lastViewedKey userId))))
                    (new_Set (split "," (currentMembersKey ms)))).
Proof.
  intros Hnet Hne Hrun.
  destruct (run_collect_members net families []
              (log_request (families_request (API_BASE p) userId) p))
    as (p1' & r & more & Hrun' & _ & Hls & _).
  rewrite Hrun in Hrun'. injection Hrun' as <- <-. cbn in Hls.
  unfold checkNewMembers.
  cbn [run mbind prog_bind bind readApiBase fetch].
  fold (families_request (API_BASE p) userId). rewrite Hnet. cbn [negb].
  case_bool_decide as Hlen; [by apply nil_length_inv in Hlen|].
  change (bind ?x ?f) with (x ≫= f). rewrite run_bind, Hrun.
  cbn [run mbind prog_bind bind localStorage_getItem]. rewrite Hls.
  by destruct (falsy _).
Qed.

(** A members request that fails at the network stops the loop over
    the families with an exception, wherever in the list its family is. *)
Lemma run_collect_members_fails net families family :
  family ∈ families →
  ∀ acc p, net (members_request (API_BASE p) family) = NetworkError →
    ∃ p', run net (collect_members families acc) p = Done p' None.
Proof.
  intros Hin. induction families as [|f rest IH]; [by apply elem_of_nil in Hin|].
  intros acc p Hfail.
  cbn [collect_members run mbind prog_bind bind readApiBase fetch].
  fold (members_request (API_BASE p) f).
  apply elem_of_cons in Hin as [<-|Hin].
  - rewrite Hfail. eexists. reflexivity.
  - destruct (net (members_request (API_BASE p) f)) as [|[] st [|o|members]];
      try (eexists; reflexivity); by apply IH.
Qed.

(** C6 (as amended): when no baseline key is stored for the user, the
    check returns 0 and touches nothing but, at most, that key. It seeds
    the key with the current canonical membership key when the families
    request succeeds with at least one family and the loop over the
    families finishes. In every other case [localStorage] is left exactly
    as it was: when the families request fails, when its response is not
    a success, when the body is not an array or the array is empty, and
    when a request or a body in the loop throws, as a members request
    that fails at the network does. *)
Theorem first_check_reports_none net userId p :
  localStorage p !! lastViewedKey userId = None →
  ∃ p', run net (checkNewMembers userId) p = Done p' 0%Z
    ∧ sessionStorage p' = sessionStorage p
    ∧ match net (families_request (API_BASE p) userId) with
      | Response true _ (JArr (family :: families)) =>
          match run net (collect_members (family :: families) [])
                    (log_request (families_request (API_BASE p) userId) p) with
          | Done _ (Some ms) =>
              localStorage p'
              = <[lastViewedKey userId := currentMembersKey ms]> (localStorage p)
          | _ => localStorage p' = localStorage p
          end
      | _ => localStorage p' = localStorage p
      end
    ∧ (∀ st families family,
         net (families_request (API_BASE p) userId) = Response true st (JArr families) →
         family ∈ families →
         net (members_request (API_BASE p) family) = NetworkError →
         localStorage p' = localStorage p).
Proof.
  intros Hnone.
  assert (Hcase : ∃ p', run net (checkNewMembers userId) p = Done p' 0%Z
    ∧ sessionStorage p' = sessionStorage p
    ∧ match net (families_request (API_BASE p) userId) with
      | Response true _ (JArr (family :: families)) =>
          match run net (collect_members (family :: families) [])
                    (log_request (families_request (API_BASE p) userId) p) with
          | Done _ (Some ms) =>
              localStorage p'
              = <[lastViewedKey userId := currentMembersKey ms]> (localStorage p)
          | _ => localStorage p' = localStorage p
          end
      | _ => localStorage p' = localStorage p
      end).
  { unfold checkNewMembers.
    cbn [run mbind prog_bind bind readApiBase fetch].
    fold (families_request (API_BASE p) userId).
    destruct (net (families_request (API_BASE p) userId)) as [|[] st body]; cbn [negb].
    - eexists. split; [reflexivity|]. done.
    - destruct body as [|o|[|family families]].
      + eexists. split; [reflexivity|]. done.
      + destruct (o !! "length") as [[[| |]|]|]; eexists; (split; [reflexivity|]); done.
      + eexists. split; [reflexivity|]. done.
      + rewrite bool_decide_eq_false_2 by done.
        destruct (run_collect_members net (family :: families) []
                    (log_request (families_request (API_BASE p) userId) p))
          as (p1 & r & more & Hrun & Hreq & Hls & Hss & Hb).
        cbn in Hls, Hss.
        change (bind ?x ?f) with (x ≫= f). rewrite run_bind, Hrun.
        destruct r as [ms|].
        * cbn [run mbind prog_bind bind localStorage_getItem]. rewrite Hls, Hnone.
          eexists. split; [reflexivity|]. cbn. by rewrite Hls.
        * eexists. split; [reflexivity|]. done.
    - eexists. split; [reflexivity|]. done. }
  destruct Hcase as (p' & Hrun & Hss & Hm).
  exists p'. split; [done|]. split; [done|]. split; [done|].
  intros st families family Hnet Hin Hfail. rewrite Hnet in Hm.
  destruct families as [|f fs]; [done|].
  destruct (run_collect_members_fails net (f :: fs) family Hin []
              (log_request (families_request (API_BASE p) userId) p) Hfail) as (q & Hq).
  by rewrite Hq in Hm.
Qed.

Lemma elem_of_foldl_Set_add (l acc : list string) x :
  x ∈ foldl Set_add acc l ↔ x ∈ acc ∨ x ∈ l.
Proof.
  revert acc. induction l as [|y l IH]; intros acc; cbn.
  - rewrite elem_of_nil. tauto.
  - rewrite IH, elem_of_cons. unfold Set_add. case_bool_decide.
    + split; [tauto|]. intros [?|[->|?]]; auto.
    + rewrite elem_of_app, list_elem_of_singleton. tauto.
Qed.

Lemma elem_of_new_Set (l : list string) x : x ∈ new_Set l ↔ x ∈ l.
Proof.
  unfold new_Set. rewrite elem_of_foldl_Set_add, elem_of_nil. tauto.
Qed.

(** With no membership collected, the current key is the empty string,
    whose split is one empty entry: it is counted as a member the
    baseline lacks. *)
Lemma count_new_empty_membership lastViewedMembers :
  "" ∉ split "," lastViewedMembers →
  count_new (new_Set (split "," lastViewedMembers))
            (new_Set (split "," (currentMembersKey []))) = 1%Z.
Proof.
  intros Hnot.
  change (new_Set (split "," (currentMembersKey []))) with [""].
  unfold count_new, Set_has. cbn [foldl].
  rewrite bool_decide_eq_false_2; [done|]. by rewrite elem_of_new_Set.
Qed.
End NewMembers.


(** ** Readers of the API base in notifications.js *)

Section UnsetBase.
Implicit Types (net : Network) (userId : string).

(** C3 at its failing input: on a page whose API base is not yet
    published, [checkUnreadMessages] and [checkNewMembers] do not wait;
    each sends its request to a URL built from the null base. The
    readers of auth.js are suspended on that page instead. *)
Theorem notification_checks_read_unset_base net userId ss ls :
  (∃ p v, run net (checkUnreadMessages userId) (fresh ss ls) = Done p v
          ∧ requests p = [mkRequest "GET" ("null/messages/user/" +:+ userId +:+ "/unread-count")])
  ∧ (∃ p n, run net (checkNewMembers userId) (fresh ss ls) = Done p n
            ∧ head (requests p) = Some (mkRequest "GET" ("null/user/" +:+ userId +:+ "/families")))
  ∧ (∃ rest, run net getApiBase (fresh ss ls) = Blocked (fresh ss ls) rest).
Proof.
  split; [|split].
  - unfold checkUnreadMessages. cbn.
    destruct (net _) as [|[] st [|o|l]]; cbn; eauto.
  - destruct (run_checkNewMembers net userId (fresh ss ls)) as (p & n & more & Hrun & Hreq & _).
    exists p, n. split; [exact Hrun|]. by rewrite Hreq.
  - eexists. reflexivity.
Qed.
End UnsetBase.

(** ** The logout link of the header *)

Section HeaderLogout.
Implicit Types (net : Network) (p : Page).

(** C9 at its failing input: the listener removes three keys from
    [localStorage] and navigates. [sessionStorage], where auth.js keeps
    the session, is left as it was, and [mealCodeData] stays in both
    storages. *)
Theorem header_logout_leaves_session net p :
  ∃ p', run net UserHeader.logoutBtn_click p = Done p' ()
        ∧ location_href p' = Some "index.html"
        ∧ sessionStorage p' = sessionStorage p
        ∧ localStorage p' !! "mealCodeData" = localStorage p !! "mealCodeData"
        ∧ localStorage p' =
            delete "selectedFamily" (delete "userFamilies" (delete "currentUser" (localStorage p))).
Proof.
  eexists. split; [reflexivity|]. cbn. repeat split.
  by rewrite !lookup_delete_ne.
Qed.

(** The sibling in auth.js clears the four keys of [sessionStorage]. *)
Lemma auth_logout_clears_session net p :
  ∃ p', run net logout p = Done p' ()
        ∧ location_href p' = Some "index.html"
        ∧ ∀ k, k ∈ session_keys → sessionStorage p' !! k = None.
Proof.
  eexists. split; [reflexivity|]. split; [done|].
  intros k Hk. apply (cleared_session_keys p k Hk).
Qed.

Example header_logout_on_logged_in_page :
  ∃ p', run Examples.net_down UserHeader.logoutBtn_click Examples.page_logged_in = Done p' ()
        ∧ sessionStorage p' = Examples.session4
        ∧ localStorage p' !! "mealCodeData" = Some "{}".
Proof. eexists. split; [reflexivity|]. split; vm_compute; reflexivity. Qed.
End HeaderLogout.

(** ** The status message of the family code view *)

Section ClipboardMessage.
Import FamilyCode.
Implicit Types (v : View) (text : string).

(** After a successful copy the message is cleared 3000 ms later. *)
Lemma copy_success_clears_after_3s text v :
  timers v = [] →
  let v' := copyToClipboard true text v in
  message v' = "Family code copied to clipboard!"
  ∧ timers v' = [(3000, "")]
  ∧ (∀ ms, ms < 3000 → message (advance ms v') = message v')
  ∧ (∀ ms, 3000 ≤ ms → message (advance ms v') = "").
Proof.
  intros Ht v'. unfold v', copyToClipboard. cbn. rewrite Ht. cbn.
  repeat split.
  - intros ms Hms. unfold advance, filter; cbn. case_decide; [lia|done].
  - intros ms Hms. unfold advance, filter; cbn. case_decide; [done|lia].
Qed.

(** C8 at its failing input: when the clipboard write is rejected, the
    failure message is shown and no timer is set, so the message stays
    however long one waits. *)
Theorem copy_failure_message_persists text v ms :
  timers v = [] →
  let v' := copyToClipboard false text v in
  message v' = "Failed to copy to clipboard"
  ∧ timers v' = []
  ∧ message (advance ms v') = "Failed to copy to clipboard".
Proof.
  intros Ht v'. unfold v', copyToClipboard, advance. cbn. rewrite Ht. done.
Qed.

Lemma copy_failure_message_persists_witness :
  message (advance 3000 (copyToClipboard false "AB12CD34" Examples.view0))
  = "Failed to copy to clipboard".
Proof.
  apply (copy_failure_message_persists "AB12CD34" Examples.view0 3000 eq_refl).
Defined.
End ClipboardMessage.

Section NewMembersCases.

Lemma first_check_reports_none_witness :
  (∃ p', run (Examples.net_family true ["U2"; "U1"]) (checkNewMembers "u1")
             (Examples.page_with_baseline None) = Done p' 0%Z
         ∧ localStorage p' = {[ "family_members_u1" := "F1:U1,F1:U2" ]})
  ∧ (∃ p', run Examples.net_down (checkNewMembers "u1")
               (Examples.page_with_baseline None) = Done p' 0%Z
           ∧ localStorage p' = ∅).
Proof.
  split.
  - destruct (first_check_reports_none (Examples.net_family true ["U2"; "U1"]) "u1"
                (Examples.page_with_baseline None) eq_refl) as (p' & Hrun & _ & Hseed & _).
    exists p'. split; [exact Hrun|]. exact Hseed.
  - destruct (first_check_reports_none Examples.net_down "u1"
                (Examples.page_with_baseline None) eq_refl) as (p' & Hrun & _ & Hsame & _).
    exists p'. split; [exact Hrun|]. exact Hsame.
Defined.

(** C6, as stated, fails: a user who belongs to no family has no
    baseline key before the first check and none after it. *)
Lemma first_check_without_family_seeds_nothing :
  localStorage (Examples.page_with_baseline None) !! lastViewedKey "u1" = None
  ∧ ∃ p', run Examples.net_no_family (checkNewMembers "u1")
              (Examples.page_with_baseline None) = Done p' 0%Z
          ∧ localStorage p' !! lastViewedKey "u1" = None.
Proof. split; [reflexivity|]. eexists. split; reflexivity. Qed.

(** The case the specification gives: baseline [F1:U1, F1:U2], current
    membership [F1:U1, F1:U2, F1:U3]. *)
Example new_member_count_example :
  ∃ p', run (Examples.net_family true ["U1"; "U2"; "U3"]) (checkNewMembers "u1")
            (Examples.page_with_baseline (Some "F1:U1,F1:U2")) = Done p' 1%Z.
Proof. eexists. reflexivity. Qed.

(** C5 at its failing input: the baseline is [F1:U1] and the member list
    of the only family cannot be had, so the current membership is empty
    and no pair is new; the check returns 1. *)
Theorem new_member_count_on_empty_membership :
  ∃ p', run (Examples.net_family false []) (checkNewMembers "u1")
            (Examples.page_with_baseline (Some "F1:U1")) = Done p' 1%Z
        ∧ run (Examples.net_family false [])
              (collect_members [ {[ "family_id" := PStr "F1" ]} ] [])
              (log_request (families_request (Some "http://127.0.0.1:8900/api") "u1")
                           (Examples.page_with_baseline (Some "F1:U1")))
          = Done p' (Some []).
Proof. eexists. split; reflexivity. Qed.

(** The same with a family that has no member at all. *)
Example new_member_count_on_memberless_family :
  ∃ p', run (Examples.net_family true []) (checkNewMembers "u1")
            (Examples.page_with_baseline (Some "F1:U1")) = Done p' 1%Z.
Proof. eexists. reflexivity. Qed.
End NewMembersCases.

(** ** Resolution of the API base *)

Section Resolver.
Implicit Types (order : list Settled → list Settled) (health : string → Probe)
               (loc : Location) (p : Page) (l : list Settled) (s : Settled).

Lemma insert_by_time_perm s l : Permutation (insert_by_time s l) (s :: l).
Proof.
  induction l as [|x l IH]; cbn; [done|].
  case_decide; [done|]. rewrite IH. apply perm_swap.
Qed.

Lemma insert_by_time_sorted s l :
  StronglySorted (λ a b, at_ms a ≤ at_ms b) l →
  StronglySorted (λ a b, at_ms a ≤ at_ms b) (insert_by_time s l).
Proof.
  induction 1 as [|x l Hl IH Hx]; cbn.
  - repeat constructor.
  - case_decide as Hlt.
    + constructor; [by constructor|]. constructor; [lia|].
      eapply Forall_impl; [exact Hx|]. cbn. intros; lia.
    + constructor; [exact IH|].
      rewrite (insert_by_time_perm s l). constructor; [lia|exact Hx].
Qed.

Lemma by_time_fair : fair by_time.
Proof.
  intros l. unfold by_time. induction l as [|s l [IHp IHs]]; cbn.
  - split; constructor.
  - split.
    + rewrite insert_by_time_perm. by constructor.
    + by apply insert_by_time_sorted.
Qed.

Lemma find_fulfilled_first l s :
  StronglySorted (λ a b, at_ms a ≤ at_ms b) l →
  List.find fulfilled l = Some s →
  s ∈ l ∧ fulfilled s = true
  ∧ ∀ s', s' ∈ l → fulfilled s' = true → at_ms s ≤ at_ms s'.
Proof.
  induction 1 as [|x l Hl IH Hx]; cbn; [done|].
  destruct (fulfilled x) eqn:Hfx.
  - intros [= <-]. split; [left|]. split; [done|].
    intros s' [->|Hin]%elem_of_cons _; [lia|].
    rewrite Forall_forall in Hx. by apply Hx.
  - intros Hfind. destruct (IH Hfind) as (Hin & Hf & Hmin).
    split; [by right|]. split; [done|].
    intros s' [->|Hin']%elem_of_cons Hf'; [congruence|]. by apply Hmin.
Qed.

Lemma find_fulfilled_none l :
  List.find fulfilled l = None ↔ ∀ s, s ∈ l → fulfilled s = false.
Proof.
  induction l as [|x l IH]; cbn.
  - split; [|done]. intros _ s Hs. by apply elem_of_nil in Hs.
  - destruct (fulfilled x) eqn:Hfx.
    + split; [done|]. intros Hall. specialize (Hall x (list_elem_of_here _ _)). congruence.
    + rewrite IH. split.
      * intros Hall s [->|?]%elem_of_cons; auto.
      * intros Hall s Hs. apply Hall. by right.
Qed.

Lemma who_fetchWithTimeout health base ms : who (fetchWithTimeout health base ms) = base.
Proof.
  unfold fetchWithTimeout. destruct (health _); repeat case_decide; done.
Qed.

(** A probe succeeds exactly when the health request is answered with a
    success status before the 2500 ms timer. *)
Lemma success_at_spec health base t :
  success_at health base = Some t ↔
  health (base +:+ "/health") = Replies t true ∧ t < 2500.
Proof.
  unfold success_at, fetchWithTimeout.
  destruct (health _) as [t' ok|t'|]; repeat case_decide; cbn;
    try destruct ok; split; try done; try (intros [[=] ?]; subst; (done || lia)).
  - intros [= <-]. done.
Qed.

Lemma race_Some order health cs w :
  fair order → race order health cs = Some w →
  w ∈ cs ∧ ∃ t, success_at health w = Some t
                ∧ ∀ c t', c ∈ cs → success_at health c = Some t' → t ≤ t'.
Proof.
  intros Hfair. unfold race, Promise_any.
  destruct (Hfair (map (λ base, fetchWithTimeout health base 2500) cs)) as [Hperm Hsorted].
  destruct (List.find _ _) as [s|] eqn:Hfind; [|done]. intros [= <-].
  destruct (find_fulfilled_first _ _ Hsorted Hfind) as (Hin & Hf & Hmin).
  rewrite Hperm in Hin. apply list_elem_of_fmap in Hin as (c & -> & Hc).
  rewrite who_fetchWithTimeout. split; [done|].
  exists (at_ms (fetchWithTimeout health c 2500)). split.
  - unfold success_at. by rewrite Hf.
  - intros c' t' Hc' Hs'. unfold success_at in Hs'.
    destruct (fulfilled (fetchWithTimeout health c' 2500)) eqn:Hf'; [|done].
    injection Hs' as <-. apply Hmin; [|done].
    rewrite Hperm. apply list_elem_of_fmap. eauto.
Qed.

Lemma race_None order health cs :
  fair order →
  race order health cs = None ↔ ∀ c, c ∈ cs → success_at health c = None.
Proof.
  intros Hfair. unfold race, Promise_any.
  destruct (Hfair (map (λ base, fetchWithTimeout health base 2500) cs)) as [Hperm _].
  rewrite fmap_None, find_fulfilled_none. split.
  - intros Hall c Hc. unfold success_at. rewrite Hall; [done|].
    rewrite Hperm. apply list_elem_of_fmap. eauto.
  - intros Hall s Hs. rewrite Hperm in Hs.
    apply list_elem_of_fmap in Hs as (c & -> & Hc).
    specialize (Hall c Hc). unfold success_at in Hall. by destruct (fulfilled _).
Qed.
End Resolver.

Section Resolution.
Implicit Types (order : list Settled → list Settled) (health : string → Probe)
               (loc : Location) (p : Page).

(** The candidate list is the same-origin base (when the page is served
    over http or https) followed by the six development bases, without
    repetitions and in that order. *)
Lemma candidates_dedup loc :
  candidates loc =
  foldl push_new []
    ((if String.prefix "http" (PROTOCOL loc) && negb (bool_decide (origin loc = ""))
      then [origin loc +:+ "/api"] else [])
     ++ [dev_base loc "127.0.0.1" 8900; dev_base loc "127.0.0.1" 8765;
         dev_base loc "127.0.0.1" 8000; dev_base loc "localhost" 8900;
         dev_base loc "localhost" 8765; dev_base loc "localhost" 8000]).
Proof. unfold candidates. by destruct (_ && _). Qed.

Lemma elem_of_foldl_push_new (l acc : list string) x :
  x ∈ foldl push_new acc l ↔ x ∈ acc ∨ x ∈ l.
Proof.
  revert acc. induction l as [|y l IH]; intros acc; cbn.
  - rewrite elem_of_nil. tauto.
  - rewrite IH, elem_of_cons. unfold push_new. case_bool_decide.
    + split; [tauto|]. intros [?|[->|?]]; auto.
    + rewrite elem_of_app, list_elem_of_singleton. tauto.
Qed.

Lemma fallback_candidate loc : fallback loc ∈ candidates loc.
Proof.
  rewrite candidates_dedup, elem_of_foldl_push_new. right.
  apply elem_of_app. right. left.
Qed.

(** C1 (as amended): with requests issued in any order, the resolver
    publishes a candidate whose health request was answered with success
    before its 2500 ms timer and before that of every other candidate
    that succeeded; it takes the fallback branch, which warns on the
    console and publishes protocol//127.0.0.1:8900/api, exactly when
    every candidate fails or times out. The published value alone does
    not tell the branches apart: it equals the fallback also when the
    candidate 127.0.0.1:8900 wins the race. *)
Theorem detectApiBase_publishes order health loc p :
  fair order →
  let p' := detectApiBase order health loc p in
  ((∃ c, c ∈ candidates loc ∧ is_Some (success_at health c)) →
     ∃ w t, API_BASE p' = Some w ∧ w ∈ candidates loc
            ∧ health (w +:+ "/health") = Replies t true ∧ t < 2500
            ∧ (∀ c t', c ∈ candidates loc → success_at health c = Some t' → t ≤ t')
            ∧ (∀ issued, Permutation issued (candidates loc) →
                 ∃ w', race order health issued = Some w' ∧ w' ∈ candidates loc
                       ∧ success_at health w' = Some t))
  ∧ ((∀ c, c ∈ candidates loc → success_at health c = None) →
       API_BASE p' = Some (fallback loc))
  ∧ (console p' = console p ++ [warn_no_host (fallback loc);
                                "[MealPlanner] API_BASE = " +:+ fallback loc]
     ↔ ∀ c, c ∈ candidates loc → success_at health c = None)
  ∧ (API_BASE p' = Some (fallback loc) →
       (∀ c, c ∈ candidates loc → success_at health c = None)
       ∨ is_Some (success_at health (fallback loc)))
  ∧ window_API_BASE p' = API_BASE p'
  ∧ API_READY p' = API_READY p || resolveApiReady p.
Proof.
  intros Hfair p'. unfold p', detectApiBase.
  pose proof (race_None order health (candidates loc) Hfair) as HNone.
  destruct (race order health (candidates loc)) as [w|] eqn:Hrace.
  - destruct (race_Some order health _ w Hfair Hrace) as (Hw & t & Ht & Hmin).
    assert (Hsome : ∀ c, c ∈ candidates loc → is_Some (success_at health c) →
              ¬ ∀ c, c ∈ candidates loc → success_at health c = None).
    { intros c Hc [t' Ht'] Hall. rewrite (Hall c Hc) in Ht'. done. }
    cbn. split; [|split; [|split; [|split]]].
    + intros _. exists w, t. split; [done|]. split; [done|].
      apply success_at_spec in Ht as Hspec. destruct Hspec as [Hh Hlt].
      split; [done|]. split; [done|]. split; [done|].
      intros issued Hperm.
      destruct (race order health issued) as [w'|] eqn:Hrace'.
      * destruct (race_Some order health _ w' Hfair Hrace') as (Hw' & t' & Ht' & Hmin').
        exists w'. split; [done|]. rewrite Hperm in Hw'. split; [done|].
        rewrite Ht'. f_equal.
        assert (t ≤ t') by (by apply (Hmin w')).
        assert (t' ≤ t); [|lia].
        apply (Hmin' w); [by rewrite Hperm|done].
      * exfalso.
        pose proof (proj1 (race_None order health issued Hfair) Hrace') as Hall'.
        rewrite (Hall' w) in Ht; [done|by rewrite Hperm].
    + intros Hall. rewrite (Hall w Hw) in Ht. done.
    + split.
      * intros Heq. apply app_inv_head in Heq. done.
      * intros Hall. rewrite (Hall w Hw) in Ht. done.
    + intros [= ->]. right. by exists t.
    + done.
  - cbn. split; [|split; [|split; [|split]]].
    + intros (c & Hc & [t Ht]). rewrite (proj1 HNone eq_refl c Hc) in Ht. done.
    + done.
    + split; [intros _; by apply HNone|]. intros _. by rewrite <- app_assoc.
    + intros _. left. by apply HNone.
    + done.
Qed.

Lemma detectApiBase_publishes_witness :
  ∃ w t, API_BASE (detectApiBase by_time Examples.health_all Examples.loc_dev Examples.page0)
         = Some w
         ∧ w ∈ candidates Examples.loc_dev
         ∧ Examples.health_all (w +:+ "/health") = Replies t true ∧ t < 2500.
Proof.
  destruct (detectApiBase_publishes by_time Examples.health_all Examples.loc_dev
              Examples.page0 by_time_fair) as (Hwin & _).
  destruct Hwin as (w & t & Hb & Hw & Hh & Hlt & _).
  - exists "http://localhost:8765/api". split; [|by eexists].
    rewrite candidates_dedup, elem_of_foldl_push_new. right.
    do 5 right. left.
  - exists w, t. done.
Defined.

(** C1, as stated, fails in the "only if": the published value is the
    fallback although the candidate on 127.0.0.1:8900 passed its probe. *)
Lemma fallback_value_without_total_failure :
  ¬ (API_BASE (detectApiBase by_time Examples.health_dev Examples.loc_dev Examples.page0)
     = Some (fallback Examples.loc_dev)
     ↔ ∀ c, c ∈ candidates Examples.loc_dev → success_at Examples.health_dev c = None).
Proof.
  intros [Hall _]. specialize (Hall eq_refl "http://127.0.0.1:8900/api").
  assert (Hin : "http://127.0.0.1:8900/api" ∈ candidates Examples.loc_dev)
    by apply (fallback_candidate Examples.loc_dev).
  specialize (Hall Hin). discriminate Hall.
Qed.

Example resolve_quickest :
  API_BASE (detectApiBase by_time Examples.health_all Examples.loc_dev Examples.page0)
  = Some "http://localhost:8765/api".
Proof. reflexivity. Qed.

Example resolve_fallback :
  API_BASE (detectApiBase by_time Examples.health_none Examples.loc_dev Examples.page0)
  = Some "http://127.0.0.1:8900/api".
Proof. reflexivity. Qed.
End Resolution.

(** ** Badges *)

Section Badges.
Implicit Types (cls : string) (n e : Node) (l kids : list Node) (count : Z).

Lemma querySelector_Element cls t c x kids :
  querySelector cls (Element t c x kids) = querySelector_in cls kids.
Proof. reflexivity. Qed.

Lemma detach_first_Element cls t c x kids :
  detach_first cls (Element t c x kids) = Element t c x <$> detach_first_in cls kids.
Proof. reflexivity. Qed.

Lemma count_class_Element cls t c x kids :
  count_class cls (Element t c x kids) = count_class_in cls kids.
Proof. reflexivity. Qed.

Lemma count_class_in_app cls l1 l2 :
  count_class_in cls (l1 ++ l2) = count_class_in cls l1 + count_class_in cls l2.
Proof. induction l1 as [|k l1 IH]; cbn; [done|]. cbn in IH. rewrite IH. lia. Qed.

(** No descendant matches exactly when none is counted. *)
Lemma querySelector_None cls n :
  querySelector cls n = None ↔ count_class cls n = 0.
Proof.
  induction n as [t c x kids IH] using Node_descend.
  rewrite querySelector_Element, count_class_Element.
  induction IH as [|k rest Hk _ IHrest]; cbn; [done|].
  cbn in IHrest. destruct (has_class cls k).
  - split; [done|lia].
  - destruct (querySelector cls k) eqn:Hq.
    + split; [done|]. intros H0. assert (count_class cls k = 0) as H1 by lia.
      apply Hk in H1. done.
    + rewrite IHrest. assert (count_class cls k = 0) as -> by (by apply Hk). cbn. done.
Qed.

Lemma querySelector_in_None cls l :
  querySelector_in cls l = None ↔ count_class_in cls l = 0.
Proof.
  apply (querySelector_None cls (Element "" [] "" l)).
Qed.

Lemma classList_detach_first cls n n' :
  detach_first cls n = Some n' → classList_of n' = classList_of n.
Proof.
  destruct n as [t c x kids]. rewrite detach_first_Element.
  destruct (detach_first_in cls kids); [|done]. by intros [= <-].
Qed.

(** Detaching the first match lowers the count; there is nothing to
    detach exactly when the count is zero. *)
Lemma detach_first_count cls n :
  match detach_first cls n with
  | Some n' => count_class cls n' < count_class cls n
  | None => count_class cls n = 0
  end.
Proof.
  induction n as [t c x kids IH] using Node_descend.
  rewrite detach_first_Element, count_class_Element.
  induction IH as [|k rest Hk _ IHrest]; [done|].
  change (detach_first_in cls (k :: rest)) with
    (if has_class cls k then Some rest
     else match detach_first cls k with
          | Some k' => Some (k' :: rest)
          | None => cons k <$> detach_first_in cls rest
          end).
  change (count_class_in cls (k :: rest)) with
    ((if has_class cls k then 1 else 0) + count_class cls k + count_class_in cls rest).
  destruct (has_class cls k) eqn:Hc.
  - cbn [fmap option_fmap option_map]. rewrite count_class_Element. lia.
  - destruct (detach_first cls k) as [k'|] eqn:Hd.
    + cbn [fmap option_fmap option_map]. rewrite count_class_Element.
      change (count_class_in cls (k' :: rest)) with
        ((if has_class cls k' then 1 else 0) + count_class cls k' + count_class_in cls rest).
      assert (has_class cls k' = false) as ->; [|lia].
      apply classList_detach_first in Hd. unfold has_class in *. by rewrite Hd.
    + destruct (detach_first_in cls rest) as [rest'|];
        cbn [fmap option_fmap option_map] in *; rewrite ?count_class_Element in *.
      * change (count_class_in cls (k :: rest')) with
          ((if has_class cls k then 1 else 0) + count_class cls k + count_class_in cls rest').
        rewrite Hc. lia.
      * lia.
Qed.

Lemma querySelector_in_app cls l b :
  querySelector_in cls l = None → has_class cls b = true →
  querySelector_in cls (l ++ [b]) = Some b.
Proof.
  intros Hnone Hb. induction l as [|k l IH]; cbn in *.
  - by rewrite Hb.
  - destruct (has_class cls k); [done|].
    destruct (querySelector cls k); [done|]. by apply IH.
Qed.

(** After the existing badge is detached, an element that carried at most
    one badge carries none. *)
Lemma detached_has_no_badge e :
  count_class "notification-badge" e ≤ 1 →
  count_class "notification-badge"
    (match detach_first "notification-badge" e with Some e' => e' | None => e end) = 0.
Proof.
  intros Hone. pose proof (detach_first_count "notification-badge" e) as Hd.
  destruct (detach_first "notification-badge" e); lia.
Qed.

Lemma count_class_appendChild_badge e count :
  count_class "notification-badge"
    (appendChild (classList_add "has-notification" e) (badge count))
  = S (count_class "notification-badge" e).
Proof.
  destruct e as [t c x kids]. cbn [classList_add appendChild].
  rewrite !count_class_Element, count_class_in_app.
  change (count_class_in "notification-badge" [badge count]) with 1. lia.
Qed.

Lemma count_class_classList_remove cls e :
  count_class "notification-badge" (classList_remove cls e)
  = count_class "notification-badge" e.
Proof. by destruct e. Qed.








(** Elements without a badge satisfy the hypothesis, and [updateBadge]
    keeps it. *)
Lemma updateBadge_keeps_single_badge e count e' :
  count_class "notification-badge" e ≤ 1 →
  updateBadge (Some e) count = Some e' →
  count_class "notification-badge" e' ≤ 1.
Proof.
  intros Hone. unfold updateBadge.
  pose proof (detached_has_no_badge e Hone) as H0.
  case_bool_decide; intros [= <-].
  - rewrite count_class_appendChild_badge. lia.
  - rewrite count_class_classList_remove. lia.
Qed.

Example badge_150 :
  updateBadge (Some (Element "a" [] "Messages" [])) 150
  = Some (Element "a" ["has-notification"] "Messages"
            [Element "span" ["notification-badge"] "99+" []]).
Proof. reflexivity. Qed.

Example badge_0 :
  updateBadge (Some (Element "a" ["has-notification"] "Messages"
                       [Element "span" ["notification-badge"] "99+" []])) 0
  = Some (Element "a" [] "Messages" []).
Proof. reflexivity. Qed.
End Badges.

(** ** The membership key and the count of new members *)

Section MemberKeys.
Implicit Types (l last cur : list string) (x s : string).

Lemma split_String (sep a : ascii) s :
  split sep (String a s) =
  if decide (a = sep) then "" :: split sep s
  else match split sep s with
       | x :: rest => String a x :: rest
       | [] => [String a ""]
       end.
Proof. reflexivity. Qed.

Lemma split_comma_free x :
  contains_char "," x = false → split "," x = [x].
Proof.
  induction x as [|a x IH]; [done|]. cbn [contains_char].
  intros [Ha Hx]%orb_false_elim. apply bool_decide_eq_false in Ha.
  rewrite split_String, decide_False by done. by rewrite IH.
Qed.

Lemma split_app_comma x s :
  contains_char "," x = false →
  split "," (x +:+ String "," s) = x :: split "," s.
Proof.
  induction x as [|a x IH]; [done|]. cbn [contains_char].
  intros [Ha Hx]%orb_false_elim. apply bool_decide_eq_false in Ha.
  change (String a x +:+ String "," s) with (String a (x +:+ String "," s)).
  rewrite split_String, decide_False by done. by rewrite IH.
Qed.

(** Splitting a joined array gives the array back, unless it is empty. *)
Lemma split_join l :
  l ≠ [] → Forall (λ x, contains_char "," x = false) l →
  split "," (join "," l) = l.
Proof.
  intros Hne Hall. induction Hall as [|x l Hx Hl IH]; [done|].
  destruct l as [|y l].
  - cbn. by apply split_comma_free.
  - change (join "," (x :: y :: l)) with (x +:+ String "," (join "," (y :: l))).
    rewrite split_app_comma by done. by rewrite IH.
Qed.

Lemma insert_sorted_perm x l : Permutation (insert_sorted x l) (x :: l).
Proof.
  induction l as [|y l IH]; cbn; [done|].
  destruct (String.leb x y); [done|]. rewrite IH. apply perm_swap.
Qed.

Lemma sort_perm l : Permutation (sort l) l.
Proof.
  unfold sort. induction l as [|x l IH]; cbn; [done|].
  rewrite insert_sorted_perm. by constructor.
Qed.

Lemma NoDup_foldl_Set_add l acc : NoDup acc → NoDup (foldl Set_add acc l).
Proof.
  revert acc. induction l as [|y l IH]; intros acc Hacc; cbn; [done|].
  apply IH. unfold Set_add. case_bool_decide; [done|].
  apply NoDup_app. split; [done|]. split; [|apply NoDup_singleton].
  intros z Hz ->%list_elem_of_singleton. done.
Qed.

Lemma NoDup_new_Set l : NoDup (new_Set l).
Proof. apply NoDup_foldl_Set_add. constructor. Qed.

Lemma count_new_foldl last cur (n : Z) :
  foldl (λ newMembersCount memberId,
           if negb (Set_has last memberId)
           then (newMembersCount + 1)%Z else newMembersCount) n cur
  = (n + Z.of_nat (length (filter (λ memberId, memberId ∉ last) cur)))%Z.
Proof.
  revert n. induction cur as [|y cur IH]; intros n; [cbn; lia|].
  cbn [foldl]. rewrite IH. unfold Set_has. rewrite filter_cons.
  case_bool_decide; case_decide; cbn [negb length]; try done; lia.
Qed.

(** The loop counts the entries of the current set that the last set
    lacks. *)
Lemma count_new_set_difference last cur :
  count_new (new_Set last) (new_Set cur)
  = Z.of_nat (size (list_to_set cur ∖ list_to_set last : gset string)).
Proof.
  unfold count_new. rewrite count_new_foldl, Z.add_0_l. f_equal.
  rewrite <- (size_list_to_set (C := gset string)).
  - f_equal. apply set_eq. intros x.
    rewrite elem_of_list_to_set, list_elem_of_filter, elem_of_difference,
      !elem_of_list_to_set, !elem_of_new_Set. tauto.
  - apply NoDup_filter, NoDup_new_Set.
Qed.

Lemma join_nonempty l x :
  x ∈ l → (∀ y, y ∈ l → y ≠ "") → join "," l ≠ "".
Proof.
  intros Hx Hall. destruct l as [|a l]; [by apply elem_of_nil in Hx|].
  assert (a ≠ "") as Ha by (apply Hall; left).
  destruct a as [|c a]; [done|]. destruct l; cbn; done.
Qed.

Lemma member_key_nonempty m : member_key m ≠ "".
Proof.
  unfold member_key. destruct (tostr (m_family_id m)); done.
Qed.

(** The two ids can be read back from a key when the family id has no
    colon in it. *)
Lemma key_inj (f f' u u' : string) :
  contains_char ":" f = false → contains_char ":" f' = false →
  f +:+ ":" +:+ u = f' +:+ ":" +:+ u' → f = f' ∧ u = u'.
Proof.
  change (":" +:+ u) with (String ":" u). change (":" +:+ u') with (String ":" u').
  revert f'. induction f as [|a f IH]; intros [|a' f']; cbn [contains_char].
  - intros _ _ Heq. change (String ":" u = String ":" u') in Heq. by injection Heq as ->.
  - intros _ [Ha _]%orb_false_elim Heq. apply bool_decide_eq_false in Ha.
    change (String ":" u = String a' (f' +:+ String ":" u')) in Heq.
    injection Heq as Heq _. congruence.
  - intros [Ha _]%orb_false_elim _ Heq. apply bool_decide_eq_false in Ha.
    change (String a (f +:+ String ":" u) = String ":" u') in Heq.
    injection Heq as Heq _. congruence.
  - intros [_ Hf]%orb_false_elim [_ Hf']%orb_false_elim Heq.
    change (String a (f +:+ String ":" u) = String a' (f' +:+ String ":" u')) in Heq.
    injection Heq as -> Heq.
    destruct (IH f' Hf Hf' Heq) as [-> ->]. done.
Qed.
End MemberKeys.

Section NonEmptyMembership.
Implicit Types (net : Network) (p : Page) (userId : string) (ms bs : list Member).

Lemma split_currentMembersKey ms :
  ms ≠ [] → Forall (λ m, contains_char "," (member_key m) = false) ms →
  split "," (currentMembersKey ms) ≡ₚ member_key <$> ms.
Proof.
  intros Hne Hall. unfold currentMembersKey.
  rewrite split_join.
  - apply sort_perm.
  - intros Hnil. pose proof (sort_perm (map member_key ms)) as Hp.
    rewrite Hnil in Hp. apply Permutation_nil_l in Hp. by destruct ms.
  - rewrite (sort_perm (map member_key ms)). by apply Forall_fmap.
Qed.

Lemma currentMembersKey_nonempty ms : ms ≠ [] → currentMembersKey ms ≠ "".
Proof.
  intros Hne. destruct ms as [|m ms]; [done|].
  apply (join_nonempty _ (member_key m)).
  - rewrite (sort_perm (map member_key (m :: ms))). left.
  - intros y. rewrite (sort_perm (map member_key (m :: ms))).
    intros (m' & -> & _)%list_elem_of_fmap. apply member_key_nonempty.
Qed.

(** Where the claim of C5 holds: when both the stored baseline and the
    current membership are non-empty (and no id contains a comma), the
    check returns the number of current keys that the baseline lacks. *)
Lemma new_member_count_is_set_difference net userId p st families p1 ms bs :
  net (families_request (API_BASE p) userId) = Response true st (JArr families) →
  families ≠ [] →
  run net (collect_members families [])
      (log_request (families_request (API_BASE p) userId) p) = Done p1 (Some ms) →
  ms ≠ [] → bs ≠ [] →
  Forall (λ m, contains_char "," (member_key m) = false) ms →
  Forall (λ m, contains_char "," (member_key m) = false) bs →
  localStorage p !! lastViewedKey userId = Some (currentMembersKey bs) →
  run net (checkNewMembers userId) p =
    Done p1 (Z.of_nat (size (list_to_set (member_key <$> ms)
                             ∖ list_to_set (member_key <$> bs) : gset string))).
Proof.
  intros Hnet Hfam Hcoll Hms Hbs Hcms Hcbs Hlast.
  rewrite (run_checkNewMembers_collected net userId p st families p1 ms) by done.
  rewrite Hlast. cbn [falsy tostr_nullable].
  rewrite bool_decide_eq_false_2 by (by apply currentMembersKey_nonempty).
  rewrite count_new_set_difference.
  by rewrite (list_to_set_perm_L _ _ (split_currentMembersKey ms Hms Hcms)),
    (list_to_set_perm_L _ _ (split_currentMembersKey bs Hbs Hcbs)).
Qed.
End NonEmptyMembership.

(** * Further properties *)

(** ** auth.js *)

Section Candidates.
Implicit Types (loc : Location) (l acc : list string).

Lemma NoDup_foldl_push_new l acc : NoDup acc → NoDup (foldl push_new acc l).
Proof.
  revert acc. induction l as [|y l IH]; intros acc Hacc; cbn; [done|].
  apply IH. unfold push_new. case_bool_decide; [done|].
  apply NoDup_app. split; [done|]. split; [|apply NoDup_singleton].
  intros z Hz ->%list_elem_of_singleton. done.
Qed.

Lemma head_foldl_push_new l acc x :
  head acc = Some x → head (foldl push_new acc l) = Some x.
Proof.
  revert acc. induction l as [|y l IH]; intros acc Hacc; cbn; [done|].
  apply IH. unfold push_new. case_bool_decide; [done|].
  destruct acc; [done|]. done.
Qed.

Lemma head_foldl_push_new_nil l x :
  head (foldl push_new [] (x :: l)) = Some x.
Proof.
  change (foldl push_new [] (x :: l)) with (foldl push_new (push_new [] x) l).
  apply head_foldl_push_new. unfold push_new.
  case_bool_decide as Hin; [by apply elem_of_nil in Hin|done].
Qed.

Lemma length_foldl_push_new l acc :
  length (foldl push_new acc l) ≤ length acc + length l.
Proof.
  revert acc. induction l as [|y l IH]; intros acc; cbn; [lia|].
  etrans; [apply IH|]. unfold push_new. case_bool_decide; [lia|].
  rewrite length_app. cbn. lia.
Qed.

Lemma append_nonempty (a b : string) : b ≠ "" → a +:+ b ≠ "".
Proof. destruct a; [done|]. cbn. done. Qed.

(** X1: the candidate list has no repetition, holds the six development
    bases, starts with the same-origin base when the page is served over
    http(s) and with 127.0.0.1:8900 otherwise, has at most seven entries
    and no empty one. *)
Theorem candidates_distinct_and_complete loc :
  NoDup (candidates loc)
  ∧ (∀ h p, h ∈ hosts → p ∈ ports → dev_base loc h p ∈ candidates loc)
  ∧ head (candidates loc) =
      Some (if String.prefix "http" (PROTOCOL loc) && negb (bool_decide (origin loc = ""))
            then origin loc +:+ "/api" else dev_base loc "127.0.0.1" 8900)
  ∧ length (candidates loc) ≤ 7
  ∧ ∀ c, c ∈ candidates loc → c ≠ "".
Proof.
  rewrite candidates_dedup. split; [|split; [|split; [|split]]].
  - apply NoDup_foldl_push_new. constructor.
  - intros h p Hh Hp. apply elem_of_foldl_push_new. right.
    apply elem_of_app. right.
    unfold hosts in Hh. unfold ports in Hp.
    rewrite !elem_of_cons, elem_of_nil in Hh.
    rewrite !elem_of_cons, elem_of_nil in Hp.
    destruct Hh as [->|[->|[]]]; destruct Hp as [->|[->|[->|[]]]];
      rewrite !elem_of_cons; tauto.
  - destruct (_ && _); cbn [app]; apply head_foldl_push_new_nil.
  - etrans; [apply length_foldl_push_new|]. destruct (_ && _); cbn; lia.
  - intros c [[]%elem_of_nil|Hc]%elem_of_foldl_push_new.
    apply elem_of_app in Hc as [Hc|Hc].
    + destruct (_ && _); [|by apply elem_of_nil in Hc].
      apply list_elem_of_singleton in Hc as ->. by apply append_nonempty.
    + rewrite !elem_of_cons, elem_of_nil in Hc.
      destruct Hc as [->|[->|[->|[->|[->|[->|[]]]]]]];
        unfold dev_base; do 5 (apply append_nonempty); done.
Qed.
End Candidates.

Section Published.
Implicit Types (order : list Settled → list Settled) (health : string → Probe)
               (loc : Location) (p : Page) (net : Network).

Lemma candidate_nonempty loc c : c ∈ candidates loc → c ≠ "".
Proof.
  rewrite candidates_dedup.
  intros [[]%elem_of_nil|Hc]%elem_of_foldl_push_new.
  apply elem_of_app in Hc as [Hc|Hc].
  - destruct (_ && _); [|by apply elem_of_nil in Hc].
    apply list_elem_of_singleton in Hc as ->. by apply append_nonempty.
  - rewrite !elem_of_cons, elem_of_nil in Hc.
    destruct Hc as [->|[->|[->|[->|[->|[->|[]]]]]]];
      unfold dev_base; do 5 (apply append_nonempty); done.
Qed.

Lemma length_append (a b : string) :
  String.length (a +:+ b) = String.length a + String.length b.
Proof.
  induction a as [|c a IH]; [done|].
  change (S (String.length (a +:+ b)) = S (String.length a + String.length b)).
  by rewrite IH.
Qed.

Lemma append_inj_r (a b s : string) : a +:+ s = b +:+ s → a = b.
Proof.
  revert b. induction a as [|c a IH]; intros [|d b] Heq; [done| | |].
  - apply (f_equal String.length) in Heq.
    change (String.length s = S (String.length (b +:+ s))) in Heq.
    rewrite length_append in Heq. lia.
  - apply (f_equal String.length) in Heq.
    change (S (String.length (a +:+ s)) = String.length s) in Heq.
    rewrite length_append in Heq. lia.
  - change (String c (a +:+ s) = String d (b +:+ s)) in Heq.
    injection Heq as -> Heq. by rewrite (IH b Heq).
Qed.

Lemma detectApiBase_base order health loc p :
  fair order →
  ∃ b, API_BASE (detectApiBase order health loc p) = Some b ∧ b ∈ candidates loc.
Proof.
  intros Hfair. unfold detectApiBase.
  destruct (race order health (candidates loc)) as [w|] eqn:Hrace.
  - exists w. split; [done|]. by destruct (race_Some order health _ w Hfair Hrace).
  - exists (fallback loc). split; [done|]. apply fallback_candidate.
Qed.

(** X2: whatever the probes do, the resolver publishes one of the
    candidates, never a null or empty base, fulfils the readiness promise,
    and from then on every reader gets the published base at once; a
    reader that was suspended on the fresh page gets it when it resumes. *)
Theorem resolver_releases_readers order health loc net p :
  fair order → resolveApiReady p = true →
  let p' := detectApiBase order health loc p in
  API_READY p' = true
  ∧ ∃ b, API_BASE p' = Some b ∧ window_API_BASE p' = Some b
         ∧ b ∈ candidates loc ∧ b ≠ ""
         ∧ run net getApiBase p' = Done p' (Some b)
         ∧ ∀ ss ls rest,
             run net getApiBase (fresh ss ls) = Blocked (fresh ss ls) rest →
             run net rest p' = Done p' (Some b).
Proof.
  intros Hfair Hres p'.
  destruct (detectApiBase_base order health loc p Hfair) as (b & Hb & Hin).
  fold p' in Hb. split.
  - unfold p', detectApiBase. destruct (race _ _ _); cbn; rewrite Hres; apply orb_true_r.
  - exists b. split; [done|]. split.
    { unfold p', detectApiBase in Hb |- *. by destruct (race _ _ _). }
    split; [done|]. pose proof (candidate_nonempty loc b Hin) as Hne.
    split; [done|]. split; [by apply (run_getApiBase_set _ _ b)|].
    intros ss ls rest Hblocked.
    destruct (run_getApiBase_unset net ss ls) as (rest' & Hrest' & Hresume).
    rewrite Hrest' in Hblocked. injection Hblocked as <-.
    by rewrite Hresume, Hb.
Qed.

Lemma resolver_releases_readers_witness :
  API_READY (detectApiBase by_time Examples.health_none Examples.loc_dev Examples.page0) = true.
Proof.
  apply (resolver_releases_readers by_time Examples.health_none Examples.loc_dev
           Examples.net_down Examples.page0 by_time_fair eq_refl).
Defined.

(** X3: when one candidate succeeds strictly before every other one that
    succeeds, that candidate is published, whatever the order in which the
    requests are issued and in which the event loop runs settlements of
    the same millisecond. *)
Theorem unique_earliest_candidate_wins order health loc p c t :
  fair order →
  c ∈ candidates loc → success_at health c = Some t →
  (∀ c' t', c' ∈ candidates loc → success_at health c' = Some t' → c' ≠ c → t < t') →
  API_BASE (detectApiBase order health loc p) = Some c
  ∧ ∀ issued, Permutation issued (candidates loc) → race order health issued = Some c.
Proof.
  intros Hfair Hc Ht Huniq.
  assert (Hrace : ∀ issued, Permutation issued (candidates loc) →
                            race order health issued = Some c).
  { intros issued Hperm.
    destruct (race order health issued) as [w|] eqn:Hrace.
    - destruct (race_Some order health _ w Hfair Hrace) as (Hw & tw & Htw & Hmin).
      destruct (decide (w = c)) as [->|Hne]; [done|].
      rewrite Hperm in Hw.
      pose proof (Huniq w tw Hw Htw Hne) as Hlt.
      assert (tw ≤ t); [|lia]. apply (Hmin c); [by rewrite Hperm|done].
    - pose proof (proj1 (race_None order health issued Hfair) Hrace c) as Hnone.
      rewrite Hnone in Ht; [done|by rewrite Hperm]. }
  split; [|done]. unfold detectApiBase. by rewrite (Hrace (candidates loc)).
Qed.

Lemma unique_earliest_candidate_wins_witness :
  API_BASE (detectApiBase by_time Examples.health_all Examples.loc_dev Examples.page0)
  = Some "http://localhost:8765/api".
Proof.
  apply (unique_earliest_candidate_wins by_time Examples.health_all Examples.loc_dev
           Examples.page0 "http://localhost:8765/api" 5 by_time_fair).
  - rewrite candidates_dedup, elem_of_foldl_push_new. right. do 5 right. left.
  - reflexivity.
  - intros c' t' _ Ht' Hne. unfold success_at, fetchWithTimeout, Examples.health_all in Ht'.
    case_bool_decide as Hurl.
    + exfalso. apply Hne. by apply (append_inj_r c' "http://localhost:8765/api" "/health").
    + cbn in Ht'. injection Ht' as <-. lia.
Defined.
End Published.

Section GuardPaths.
Context `{Platform}.
Implicit Types (net : Network) (p : Page) (base userData : string).

Lemma run_checkUserAuth_confirmed net p base userData user st body :
  API_BASE p = Some base → base ≠ "" →
  sessionStorage p !! "currentUser" = Some userData → userData ≠ "" →
  JSON_parse userData = Some user →
  net (lookup_request base user) = Response true st body →
  run net checkUserAuth p = Done (log_request (lookup_request base user) p) (Some user).
Proof.
  intros Hb Hne Hu Hune Hparse Hnet.
  unfold checkUserAuth. rewrite run_bind, (run_await_if_unset_set _ _ base) by done.
  cbn [run mbind prog_bind bind sessionStorage_getItem]. unfold getTabKey. rewrite Hu.
  cbn [falsy]. rewrite bool_decide_eq_false_2 by done. cbn [tostr_nullable].
  rewrite Hparse, run_bind, (run_getApiBase_set _ _ base) by done.
  cbn [run mbind prog_bind bind fetch tostr_nullable].
  unfold lookup_request in Hnet. by rewrite Hnet.
Qed.

(** X4: when the backend confirms the cached user, [checkUserAuth]
    returns the cached object as parsed (nothing of the response goes into
    it), after exactly one request, a GET for [/user/{id}], and with both
    storages and the location as they were. *)
Theorem checkUserAuth_confirmed_session net p base userData user st body :
  API_BASE p = Some base → base ≠ "" →
  sessionStorage p !! "currentUser" = Some userData → userData ≠ "" →
  JSON_parse userData = Some user →
  net (lookup_request base user) = Response true st body →
  ∃ p', run net checkUserAuth p = Done p' (Some user)
        ∧ requests p' = requests p ++ [lookup_request base user]
        ∧ sessionStorage p' = sessionStorage p
        ∧ localStorage p' = localStorage p
        ∧ location_href p' = location_href p.
Proof.
  intros Hb Hne Hu Hune Hparse Hnet. eexists. split.
  - by apply (run_checkUserAuth_confirmed net p base userData user st body).
  - done.
Qed.

(** X5: on a confirmed session [initAuth] hands the cached user to
    [onSuccess] and does nothing else: no key is removed and there is no
    navigation of its own; without [onSuccess] it just ends. *)
Theorem initAuth_confirmed_session net p base userData user st body onSuccess onError :
  API_BASE p = Some base → base ≠ "" →
  sessionStorage p !! "currentUser" = Some userData → userData ≠ "" →
  JSON_parse userData = Some user →
  net (lookup_request base user) = Response true st body →
  run net (initAuth onSuccess onError) p
  = match onSuccess with
    | Some f => run net (f user) (log_request (lookup_request base user) p)
    | None => Done (log_request (lookup_request base user) p) ()
    end.
Proof.
  intros Hb Hne Hu Hune Hparse Hnet.
  unfold initAuth. rewrite run_bind, (run_await_if_unset_set _ _ base) by done.
  rewrite run_bind.
  rewrite (run_checkUserAuth_confirmed net p base userData user st body) by done.
  by destruct onSuccess.
Qed.

(** X7: a cached entry that does not parse is an invalid session: the
    four keys are removed without any request, and [initAuth] goes on with
    the failure path. *)
Theorem unparsable_session_is_cleared net p base userData onSuccess onError :
  API_BASE p = Some base → base ≠ "" →
  sessionStorage p !! "currentUser" = Some userData → userData ≠ "" →
  JSON_parse userData = None →
  ∃ p', run net checkUserAuth p = Done p' None
        ∧ requests p' = requests p
        ∧ (∀ k, k ∈ session_keys → sessionStorage p' !! k = None)
        ∧ run net (initAuth onSuccess onError) p = run net (failure_path onError) p'.
Proof.
  intros Hb Hne Hu Hune Hparse.
  pose proof (run_checkUserAuth_unparsable net p base userData Hb Hne Hu Hune Hparse) as Hrun.
  eexists. split; [exact Hrun|]. split; [done|]. split; [apply cleared_session_keys|].
  unfold initAuth. rewrite run_bind, (run_await_if_unset_set _ _ base) by done.
  by rewrite run_bind, Hrun.
Qed.

(** X8: with no usable entry (none, or the empty string) [initAuth] goes
    to the failure path on the unchanged page, without a request; by
    default that is the redirect, which removes the four keys and sets the
    location to the login page. *)
Theorem initAuth_without_session net p base onSuccess onError :
  API_BASE p = Some base → base ≠ "" →
  falsy (sessionStorage p !! "currentUser") = true →
  run net (initAuth onSuccess onError) p = run net (failure_path onError) p
  ∧ run net (initAuth onSuccess None) p = Done (set_href "index.html" (cleared p)) ().
Proof.
  intros Hb Hne Hf.
  assert (Hcheck : run net checkUserAuth p = Done p None).
  { unfold checkUserAuth. rewrite run_bind, (run_await_if_unset_set _ _ base) by done.
    cbn [run mbind prog_bind bind sessionStorage_getItem]. unfold getTabKey.
    by rewrite Hf. }
  assert (Hinit : ∀ onE, run net (initAuth onSuccess onE) p = run net (failure_path onE) p).
  { intros onE. unfold initAuth.
    rewrite run_bind, (run_await_if_unset_set _ _ base) by done.
    by rewrite run_bind, Hcheck. }
  split; [apply Hinit|]. by rewrite Hinit.
Qed.
End GuardPaths.

Section GuardPathsWitnesses.

Lemma checkUserAuth_confirmed_session_witness :
  ∃ p', run Scenarios.net_ok (@checkUserAuth Examples.demo_platform) Examples.page_logged_in
        = Done p' (Some {[ "user_id" := PNum 7 ]})
        ∧ requests p' = requests Examples.page_logged_in
                        ++ [@lookup_request Examples.demo_platform
                              "http://127.0.0.1:8900/api" {[ "user_id" := PNum 7 ]}]
        ∧ sessionStorage p' = sessionStorage Examples.page_logged_in
        ∧ localStorage p' = localStorage Examples.page_logged_in
        ∧ location_href p' = location_href Examples.page_logged_in.
Proof.
  apply (@checkUserAuth_confirmed_session Examples.demo_platform Scenarios.net_ok
           Examples.page_logged_in "http://127.0.0.1:8900/api" Examples.user7_json
           {[ "user_id" := PNum 7 ]} 200 (JObj {[ "unread_count" := PNum 3 ]}));
    (reflexivity || discriminate).
Defined.

Lemma initAuth_confirmed_session_witness :
  ∃ p', run Scenarios.net_ok (@initAuth Examples.demo_platform None None)
            Examples.page_logged_in = Done p' ()
        ∧ sessionStorage p' = Examples.session4.
Proof.
  eexists. split.
  - apply (@initAuth_confirmed_session Examples.demo_platform Scenarios.net_ok
             Examples.page_logged_in "http://127.0.0.1:8900/api" Examples.user7_json
             {[ "user_id" := PNum 7 ]} 200 (JObj {[ "unread_count" := PNum 3 ]}) None None);
      (reflexivity || discriminate).
  - reflexivity.
Defined.

Lemma unparsable_session_is_cleared_witness :
  ∃ p', run Examples.net_down (@checkUserAuth Examples.demo_platform) Scenarios.page_garbled
        = Done p' None
        ∧ requests p' = requests Scenarios.page_garbled
        ∧ (∀ k, k ∈ session_keys → sessionStorage p' !! k = None)
        ∧ run Examples.net_down (@initAuth Examples.demo_platform None None)
              Scenarios.page_garbled
          = run Examples.net_down (failure_path None) p'.
Proof.
  apply (@unparsable_session_is_cleared Examples.demo_platform Examples.net_down
           Scenarios.page_garbled "http://127.0.0.1:8900/api" "{user_id:")
  ; (reflexivity || discriminate).
Defined.

Lemma initAuth_without_session_witness :
  run Examples.net_down (@initAuth Examples.demo_platform None None)
      (setApiBase "http://127.0.0.1:8900/api" Examples.page0)
  = Done (set_href "index.html"
            (cleared (setApiBase "http://127.0.0.1:8900/api" Examples.page0))) ().
Proof.
  apply (@initAuth_without_session Examples.demo_platform Examples.net_down
           (setApiBase "http://127.0.0.1:8900/api" Examples.page0)
           "http://127.0.0.1:8900/api" None None);
    (reflexivity || discriminate).
Defined.
End GuardPathsWitnesses.

Section Logout.
Implicit Types (net : Network) (p : Page).

Lemma cleared_idemp p : cleared (cleared p) = cleared p.
Proof.
  unfold cleared, set_sessionStorage; cbn. f_equal.
  apply map_eq. intros k. rewrite !lookup_delete. repeat case_decide; done.
Qed.

(** X6: [logout] and [redirectToLogin] do the same: they remove the four
    session keys, keep every other key of [sessionStorage] and all of
    [localStorage], send nothing, and leave the location at the login
    page. Clearing again changes nothing. *)
Theorem logout_clears_only_the_session net p :
  ∃ p', run net logout p = Done p' ()
        ∧ run net redirectToLogin p = Done p' ()
        ∧ location_href p' = Some "index.html"
        ∧ (∀ k, k ∈ session_keys → sessionStorage p' !! k = None)
        ∧ (∀ k, k ∉ session_keys → sessionStorage p' !! k = sessionStorage p !! k)
        ∧ localStorage p' = localStorage p
        ∧ requests p' = requests p
        ∧ run net clearUserData p' = Done p' ().
Proof.
  exists (set_href "index.html" (cleared p)).
  split; [reflexivity|]. split; [reflexivity|]. split; [reflexivity|].
  split; [intros k Hk; apply (cleared_session_keys p k Hk)|].
  split; [intros k Hk; apply (cleared_other_keys p k Hk)|].
  split; [reflexivity|]. split; [reflexivity|].
  rewrite run_clearUserData. f_equal.
  change (cleared (set_href "index.html" (cleared p)))
    with (set_href "index.html" (cleared (cleared p))).
  by rewrite cleared_idemp.
Qed.
End Logout.

Section Waiting.
Context `{Platform}.
Implicit Types (order : list Settled → list Settled) (health : string → Probe)
               (loc : Location) (p : Page) (net : Network).

(** X9: called before the API base is published, [checkUserAuth] and
    [initAuth] are suspended with the page untouched; resumed on the page
    that [detectApiBase] leaves, each does what a fresh call does there. *)
Theorem guard_waits_for_the_base order health loc net p onSuccess onError :
  fair order →
  falsy (API_BASE p) = true → API_READY p = false →
  let p' := detectApiBase order health loc p in
  (∃ rest, run net checkUserAuth p = Blocked p rest
           ∧ run net rest p' = run net checkUserAuth p')
  ∧ (∃ rest, run net (initAuth onSuccess onError) p = Blocked p rest
             ∧ run net rest p' = run net (initAuth onSuccess onError) p').
Proof.
  intros Hfair Hf Hr p'.
  destruct (detectApiBase_base order health loc p Hfair) as (b & Hb & Hin).
  pose proof (candidate_nonempty loc b Hin) as Hne.
  split.
  - destruct (checkUserAuth_suspends_then_resumes net p Hf Hr) as (rest & Hrun & Hres).
    exists rest. split; [done|]. by apply (Hres p' b).
  - destruct (initAuth_suspends_then_resumes net p onSuccess onError Hf Hr)
      as (rest & Hrun & Hres).
    exists rest. split; [done|]. by apply (Hres p' b).
Qed.
End Waiting.

Lemma guard_waits_for_the_base_witness :
  ∃ rest, run Examples.net_404 (@checkUserAuth Examples.demo_platform)
              (fresh Examples.session4 ∅)
          = Blocked (fresh Examples.session4 ∅) rest.
Proof.
  destruct (@guard_waits_for_the_base Examples.demo_platform by_time Examples.health_none
              Examples.loc_dev Examples.net_404 (fresh Examples.session4 ∅) None None
              by_time_fair eq_refl eq_refl) as [(rest & Hrun & _) _].
  exists rest. exact Hrun.
Defined.

(** ** notifications.js *)

Section ChecksAgain.
Import Scenarios.
Implicit Types (net : Network) (p q : Page) (userId : string).

(** X10: [checkUnreadMessages] always ends after exactly one request, a
    GET for the unread count, with both storages untouched. It returns 0
    when the request fails or the response is not a success, and the
    number the backend sent otherwise. *)
Theorem checkUnreadMessages_degrades_to_zero net userId p :
  let r := mkRequest "GET" (tostr_nullable (API_BASE p) +:+ "/messages/user/"
                            +:+ userId +:+ "/unread-count") in
  ∃ p' v, run net (checkUnreadMessages userId) p = Done p' v
    ∧ requests p' = requests p ++ [r]
    ∧ sessionStorage p' = sessionStorage p
    ∧ localStorage p' = localStorage p
    ∧ (unconfirmed net r → v = PNum 0)
    ∧ (∀ st data n, net r = Response true st (JObj data) →
                    data !! "unread_count" = Some (PNum n) → v = PNum n).
Proof.
  intros r. unfold checkUnreadMessages.
  cbn [run mbind prog_bind bind readApiBase fetch]. fold r. unfold unconfirmed.
  destruct (net r) as [|[] st [|data|l]]; cbn;
    (eexists _, _; split; [reflexivity|]); repeat split; try done.
  intros st' data' n [= -> ->] Hn. by rewrite Hn.
Qed.

Lemma run_collect_members_base net families :
  ∀ acc p q, API_BASE p = API_BASE q →
    returned (run net (collect_members families acc) p)
    = returned (run net (collect_members families acc) q).
Proof.
  induction families as [|family rest IH]; intros acc p q Hb; [done|].
  cbn [collect_members run mbind prog_bind bind readApiBase fetch]. rewrite Hb.
  destruct (net _) as [|[] st [|o|members]]; try done; by apply IH.
Qed.

Lemma run_collect_members_collected net families p p1 r :
  run net (collect_members families []) p = Done p1 r →
  collected net (API_BASE p) families = r.
Proof.
  intros Hrun. unfold collected.
  pose proof (run_collect_members_base net families [] p (page_at (API_BASE p)) eq_refl) as Heq.
  rewrite Hrun in Heq. cbn in Heq.
  destruct (run net (collect_members families []) (page_at (API_BASE p))); cbn in Heq; congruence.
Qed.

(** What a check does, in terms of the membership the backend reports. *)
Lemma run_checkNewMembers_membership net userId p :
  ∃ p' more,
    requests p' = requests p ++ more
    ∧ sessionStorage p' = sessionStorage p
    ∧ API_BASE p' = API_BASE p
    ∧ match current_membership net (API_BASE p) userId with
      | None =>
          run net (checkNewMembers userId) p = Done p' 0%Z
          ∧ localStorage p' = localStorage p
      | Some ms =>
          if falsy (localStorage p !! lastViewedKey userId) then
            run net (checkNewMembers userId) p = Done p' 0%Z
            ∧ localStorage p' = <[lastViewedKey userId := currentMembersKey ms]> (localStorage p)
          else
            run net (checkNewMembers userId) p
            = Done p' (count_new
                         (new_Set (split "," (tostr_nullable
                                     (localStorage p !! lastViewedKey userId))))
                         (new_Set (split "," (currentMembersKey ms))))
            ∧ localStorage p' = localStorage p
      end.
Proof.
  unfold current_membership.
  destruct (net (families_request (API_BASE p) userId)) as [|ok st body] eqn:Hnet.
  - unfold checkNewMembers. cbn [run mbind prog_bind bind readApiBase fetch].
    fold (families_request (API_BASE p) userId). rewrite Hnet.
    eexists _, [_]. split; [|split; [|split; [|split; [reflexivity|]]]]; done.
  - destruct ok.
    2:{ unfold checkNewMembers. cbn [run mbind prog_bind bind readApiBase fetch].
        fold (families_request (API_BASE p) userId). rewrite Hnet.
        eexists _, [_]. split; [|split; [|split; [|split; [reflexivity|]]]]; done. }
    destruct body as [|o|[|family families]].
    + unfold checkNewMembers. cbn [run mbind prog_bind bind readApiBase fetch].
      fold (families_request (API_BASE p) userId). rewrite Hnet.
      eexists _, [_]. split; [|split; [|split; [|split; [reflexivity|]]]]; done.
    + unfold checkNewMembers. cbn [run mbind prog_bind bind readApiBase fetch].
      fold (families_request (API_BASE p) userId). rewrite Hnet. cbn [negb].
      destruct (o !! "length") as [[[| |]|]|];
        eexists _, [_]; (split; [|split; [|split; [|split; [reflexivity|]]]]); done.
    + unfold checkNewMembers. cbn [run mbind prog_bind bind readApiBase fetch].
      fold (families_request (API_BASE p) userId). rewrite Hnet.
      eexists _, [_]. split; [|split; [|split; [|split; [reflexivity|]]]]; done.
    + destruct (run_collect_members net (family :: families) []
                  (log_request (families_request (API_BASE p) userId) p))
        as (p1 & r & more & Hrun & Hreq & Hls & Hss & Hb).
      cbn in Hreq, Hls, Hss, Hb.
      pose proof (run_collect_members_collected net (family :: families)
                    (log_request (families_request (API_BASE p) userId) p) p1 r Hrun) as Hcol.
      cbn [API_BASE log_request] in Hcol. rewrite Hcol.
      destruct r as [ms|].
      * rewrite (run_checkNewMembers_collected net userId p st (family :: families) p1 ms)
          by done.
        destruct (falsy _).
        -- eexists _, (_ :: more).
           split; [|split; [|split; [|split; [reflexivity|]]]]; cbn;
             rewrite ?Hreq, ?Hls, <- ?app_assoc; done.
        -- exists p1, (families_request (API_BASE p) userId :: more).
           split; [|split; [|split; [|split; [reflexivity|]]]];
             rewrite ?Hreq, <- ?app_assoc; done.
      * exists (log_console "Error checking new members:" p1),
               (families_request (API_BASE p) userId :: more).
        split; [|split; [|split; [|split]]]; cbn; rewrite ?Hreq, <- ?app_assoc; try done.
        unfold checkNewMembers. cbn [run mbind prog_bind bind readApiBase fetch].
        fold (families_request (API_BASE p) userId). rewrite Hnet. cbn [negb].
        case_bool_decide as Hlen; [done|].
        change (bind ?x ?f) with (x ≫= f). by rewrite run_bind, Hrun.
Qed.
End ChecksAgain.

Section Baseline.
Import Scenarios Refresh.
Implicit Types (net : Network) (p : Page) (userId : string).

Lemma count_new_nonneg last cur : (0 ≤ count_new last cur)%Z.
Proof. unfold count_new. rewrite count_new_foldl. lia. Qed.

Lemma count_new_same l : count_new (new_Set l) (new_Set l) = 0%Z.
Proof.
  rewrite count_new_set_difference.
  by rewrite difference_diag_L.
Qed.

(** X11: a check never touches [sessionStorage], writes no key of
    [localStorage] but the baseline key of its user, and writes that one
    only when no baseline (or an empty one) is stored: an existing baseline
    is never overwritten by a check. The count it returns is never
    negative. *)
Theorem check_writes_only_a_missing_baseline net userId p :
  ∃ p' n, run net (checkNewMembers userId) p = Done p' n
    ∧ sessionStorage p' = sessionStorage p
    ∧ (∀ k, k ≠ lastViewedKey userId → localStorage p' !! k = localStorage p !! k)
    ∧ (falsy (localStorage p !! lastViewedKey userId) = false →
       localStorage p' = localStorage p)
    ∧ (0 ≤ n)%Z.
Proof.
  destruct (run_checkNewMembers_membership net userId p) as (p' & more & _ & Hss & _ & Hm).
  destruct (current_membership net (API_BASE p) userId) as [ms|].
  - destruct (falsy (localStorage p !! lastViewedKey userId)) eqn:Hf; destruct Hm as [Hrun Hls].
    + exists p', 0%Z. split; [done|]. split; [done|]. split; [|done].
      intros k Hk. by rewrite Hls, lookup_insert_ne.
    + eexists p', _. split; [exact Hrun|]. split; [done|]. split; [by rewrite Hls|].
      split; [done|]. apply count_new_nonneg.
  - destruct Hm as [Hrun Hls]. exists p', 0%Z. rewrite Hls. done.
Qed.

(** X12: two checks in a row against the same backend report the same
    count, and the second leaves [localStorage] as the first left it. In
    particular the check after the one that stored the baseline reports
    no new member. *)
Theorem second_check_agrees net userId p :
  ∃ p1 p2 n, run net (checkNewMembers userId) p = Done p1 n
    ∧ run net (checkNewMembers userId) p1 = Done p2 n
    ∧ localStorage p2 = localStorage p1
    ∧ (falsy (localStorage p !! lastViewedKey userId) = true → n = 0%Z).
Proof.
  destruct (run_checkNewMembers_membership net userId p) as (p1 & more & _ & _ & Hb & Hm).
  destruct (run_checkNewMembers_membership net userId p1) as (p2 & more' & _ & _ & _ & Hm').
  rewrite Hb in Hm'.
  destruct (current_membership net (API_BASE p) userId) as [ms|].
  - destruct (falsy (localStorage p !! lastViewedKey userId)) eqn:Hf; destruct Hm as [Hrun Hls].
    + rewrite Hls, lookup_insert_eq in Hm'. cbn [tostr_nullable] in Hm'.
      exists p1, p2, 0%Z. split; [done|].
      destruct (falsy (Some (currentMembersKey ms))); destruct Hm' as [Hrun' Hls'].
      * split; [done|]. split; [|done]. by rewrite Hls', Hls, insert_insert_eq.
      * rewrite count_new_same in Hrun'. split; [done|].
        split; [by rewrite Hls', Hls|done].
    + rewrite Hls, Hf in Hm'. destruct Hm' as [Hrun' Hls'].
      eexists p1, p2, _. split; [exact Hrun|]. split; [exact Hrun'|].
      split; [by rewrite Hls'|done].
  - destruct Hm as [Hrun Hls], Hm' as [Hrun' Hls']. exists p1, p2, 0%Z.
    split; [done|]. split; [done|]. split; done.
Qed.

End Baseline.

Section CanonicalKey.
Import Scenarios.
Implicit Types (a b c x : string) (l : list string) (ms : list Member).

Lemma str_le_iff a b : str_le a b ↔ a = b ∨ OrderedTypeEx.String_as_OT.lt a b.
Proof.
  unfold str_le, String.leb.
  rewrite <- OrderedTypeEx.String_as_OT.cmp_lt, <- OrderedTypeEx.String_as_OT.cmp_eq.
  unfold OrderedTypeEx.String_as_OT.cmp.
  destruct (String.compare a b); split; try done; try tauto.
  intros [?|?]; done.
Qed.

#[local] Instance str_le_trans : Transitive str_le.
Proof.
  intros a b c. rewrite !str_le_iff. intros [->|Hab] [->|Hbc]; auto.
  right. by apply (OrderedTypeEx.String_as_OT.lt_trans a b c).
Qed.

#[local] Instance str_le_antisymm : AntiSymm (=) str_le.
Proof. intros a b Hab Hba. by apply String.leb_antisym. Qed.

Lemma str_le_total a b : str_le a b ∨ str_le b a.
Proof. apply String.leb_total. Qed.

Lemma insert_sorted_sorted x l :
  StronglySorted str_le l → StronglySorted str_le (insert_sorted x l).
Proof.
  induction 1 as [|y l Hl IH Hy]; cbn [insert_sorted].
  - repeat constructor.
  - destruct (String.leb x y) eqn:Hxy.
    + constructor; [by constructor|]. constructor; [done|].
      eapply Forall_impl; [exact Hy|]. intros z Hz. by trans y.
    + constructor; [exact IH|].
      rewrite (insert_sorted_perm x l). constructor; [|exact Hy].
      destruct (str_le_total x y) as [Hle|Hle]; [|done].
      unfold str_le in Hle. congruence.
Qed.

Lemma sort_sorted l : StronglySorted str_le (sort l).
Proof.
  unfold sort. induction l as [|x l IH]; cbn [foldr]; [constructor|].
  by apply insert_sorted_sorted.
Qed.

Lemma sort_canonical l l' : l ≡ₚ l' → sort l = sort l'.
Proof.
  intros Hperm. apply (StronglySorted_unique str_le); [apply sort_sorted..|].
  by rewrite !sort_perm.
Qed.

(** X15: the membership key does not depend on the order in which the
    backend lists families and members: two member lists that are
    permutations of each other have the same key. Its entries are in
    ascending order. *)
Theorem membership_key_is_canonical ms ms' :
  ms ≡ₚ ms' →
  currentMembersKey ms = currentMembersKey ms'
  ∧ StronglySorted str_le (sort (map member_key ms)).
Proof.
  intros Hperm. split; [|apply sort_sorted].
  unfold currentMembersKey. f_equal. apply sort_canonical.
  by apply fmap_Permutation.
Qed.

Lemma membership_key_is_canonical_witness :
  currentMembersKey [mkMember (Some (PStr "F1")) (Some (PStr "U2"));
                     mkMember (Some (PStr "F1")) (Some (PStr "U1"))]
  = currentMembersKey [mkMember (Some (PStr "F1")) (Some (PStr "U1"));
                       mkMember (Some (PStr "F1")) (Some (PStr "U2"))].
Proof.
  apply (membership_key_is_canonical
           [mkMember (Some (PStr "F1")) (Some (PStr "U2"));
            mkMember (Some (PStr "F1")) (Some (PStr "U1"))]
           [mkMember (Some (PStr "F1")) (Some (PStr "U1"));
            mkMember (Some (PStr "F1")) (Some (PStr "U2"))]).
  apply perm_swap.
Defined.

(** X17: splitting a joined array at the commas gives the array back when
    it is not empty and no entry contains a comma. The empty array does
    not come back: it joins to the empty string, which splits into one
    empty entry. *)
Theorem split_join_round_trip l :
  l ≠ [] → Forall (λ x, contains_char "," x = false) l →
  split "," (join "," l) = l ∧ split "," (join "," []) = [""].
Proof.
  intros Hne Hall. split; [by apply split_join|reflexivity].
Qed.

Lemma split_join_round_trip_witness :
  split "," (join "," ["F1:U1"; "F1:U2"]) = ["F1:U1"; "F1:U2"].
Proof.
  apply (split_join_round_trip ["F1:U1"; "F1:U2"]).
  - discriminate.
  - repeat constructor.
Defined.
End CanonicalKey.

Section NewKeys.
Implicit Types (net : Network) (p : Page) (userId : string) (ms bs : list Member).

(** X16: when a non-empty baseline is stored and the current membership
    is not empty (and no id contains a comma), the check returns the
    number of current member keys that the baseline lacks; members that
    left are not counted, and the baseline stays as it was. *)
Theorem count_of_new_keys net userId p st families p1 ms bs :
  net (families_request (API_BASE p) userId) = Response true st (JArr families) →
  families ≠ [] →
  run net (collect_members families [])
      (log_request (families_request (API_BASE p) userId) p) = Done p1 (Some ms) →
  ms ≠ [] → bs ≠ [] →
  Forall (λ m, contains_char "," (member_key m) = false) ms →
  Forall (λ m, contains_char "," (member_key m) = false) bs →
  localStorage p !! lastViewedKey userId = Some (currentMembersKey bs) →
  run net (checkNewMembers userId) p =
    Done p1 (Z.of_nat (size (list_to_set (member_key <$> ms)
                             ∖ list_to_set (member_key <$> bs) : gset string)))
  ∧ localStorage p1 = localStorage p.
Proof.
  intros Hnet Hfam Hcoll Hms Hbs Hcms Hcbs Hlast. split.
  - by apply (new_member_count_is_set_difference net userId p st families p1 ms bs).
  - destruct (run_collect_members net families []
                (log_request (families_request (API_BASE p) userId) p))
      as (q & r & more & Hrun & _ & Hls & _).
    rewrite Hcoll in Hrun. by injection Hrun as <- <-.
Qed.

Lemma count_of_new_keys_witness :
  ∃ p1, run (Examples.net_family true ["U1"; "U3"]) (checkNewMembers "u1")
            (Examples.page_with_baseline (Some "F1:U1,F1:U2"))
        = Done p1 (Z.of_nat (size (list_to_set ["F1:U1"; "F1:U3"]
                                   ∖ list_to_set ["F1:U1"; "F1:U2"] : gset string))).
Proof.
  eexists.
  apply (count_of_new_keys (Examples.net_family true ["U1"; "U3"]) "u1"
           (Examples.page_with_baseline (Some "F1:U1,F1:U2"))
           200 [ {[ "family_id" := PStr "F1" ]} ] _
           [mkMember (Some (PStr "F1")) (Some (PStr "U1"));
            mkMember (Some (PStr "F1")) (Some (PStr "U3"))]
           [mkMember (Some (PStr "F1")) (Some (PStr "U1"));
            mkMember (Some (PStr "F1")) (Some (PStr "U2"))]).
  - reflexivity.
  - discriminate.
  - reflexivity.
  - discriminate.
  - discriminate.
  - repeat constructor.
  - repeat constructor.
  - reflexivity.
Defined.
End NewKeys.

Section BadgesAgain.
Implicit Types (e : Node) (kids : list Node) (count : Z).

Lemma detach_first_None e :
  count_class "notification-badge" e = 0 → detach_first "notification-badge" e = None.
Proof.
  intros H0. pose proof (detach_first_count "notification-badge" e) as Hd.
  destruct (detach_first "notification-badge" e); [lia|done].
Qed.

Lemma detach_first_in_snoc_badge kids count :
  count_class_in "notification-badge" kids = 0 →
  detach_first_in "notification-badge" (kids ++ [badge count]) = Some kids.
Proof.
  induction kids as [|k kids IH]; [done|].
  change (count_class_in "notification-badge" (k :: kids)) with
    ((if has_class "notification-badge" k then 1 else 0)
     + count_class "notification-badge" k + count_class_in "notification-badge" kids).
  intros H0.
  change (detach_first_in "notification-badge" ((k :: kids) ++ [badge count])) with
    (if has_class "notification-badge" k then Some (kids ++ [badge count])
     else match detach_first "notification-badge" k with
          | Some k' => Some (k' :: kids ++ [badge count])
          | None => cons k <$> detach_first_in "notification-badge" (kids ++ [badge count])
          end).
  destruct (has_class "notification-badge" k); [lia|].
  rewrite detach_first_None by lia. rewrite IH by lia. done.
Qed.

Lemma detach_first_appendChild_badge e count :
  count_class "notification-badge" e = 0 →
  detach_first "notification-badge"
    (appendChild (classList_add "has-notification" e) (badge count))
  = Some (classList_add "has-notification" e).
Proof.
  destruct e as [t c x kids]. rewrite count_class_Element. intros H0.
  cbn [classList_add appendChild]. rewrite detach_first_Element.
  by rewrite detach_first_in_snoc_badge.
Qed.

Lemma classList_add_idemp cls e :
  classList_add cls (classList_add cls e) = classList_add cls e.
Proof.
  destruct e as [t c x kids]. cbn [classList_add].
  destruct (decide (cls ∈ c)) as [Hin|Hin].
  - by rewrite !(bool_decide_eq_true_2 _ Hin).
  - rewrite (bool_decide_eq_false_2 _ Hin).
    rewrite bool_decide_eq_true_2; [done|]. apply elem_of_app. right. left.
Qed.

Lemma classList_remove_idemp cls e :
  classList_remove cls (classList_remove cls e) = classList_remove cls e.
Proof.
  destruct e as [t c x kids]. cbn [classList_remove]. f_equal.
  induction c as [|y c IH]; [done|].
  rewrite filter_cons. case_decide; [|done].
  rewrite filter_cons, decide_True by done. by rewrite IH.
Qed.

Lemma classList_remove_add cls e :
  cls ∉ classList_of e → classList_remove cls (classList_add cls e) = e.
Proof.
  destruct e as [t c x kids]. cbn [classList_remove classList_add classList_of].
  intros Hnot. rewrite bool_decide_eq_false_2 by done. f_equal.
  rewrite filter_app, filter_cons, decide_False, filter_nil, app_nil_r by (intros ?; done).
  induction c as [|y c IH]; [done|].
  apply not_elem_of_cons in Hnot as [Hy Hc].
  rewrite filter_cons, decide_True by done. by rewrite IH.
Qed.

Lemma updateBadge_positive e count :
  (0 < count)%Z →
  updateBadge (Some e) count
  = Some (appendChild
            (classList_add "has-notification"
               (match detach_first "notification-badge" e with
                | Some e' => e' | None => e end))
            (badge count)).
Proof. intros Hpos. unfold updateBadge. by rewrite bool_decide_eq_true_2. Qed.

Lemma updateBadge_nonpositive e count :
  (count ≤ 0)%Z →
  updateBadge (Some e) count
  = Some (classList_remove "has-notification"
            (match detach_first "notification-badge" e with
             | Some e' => e' | None => e end)).
Proof. intros Hpos. unfold updateBadge. rewrite bool_decide_eq_false_2; [done|lia]. Qed.

Lemma count_class_classList_add cls e :
  count_class "notification-badge" (classList_add cls e)
  = count_class "notification-badge" e.
Proof. by destruct e. Qed.

Lemma detach_first_classList_remove cls e :
  count_class "notification-badge" e = 0 →
  detach_first "notification-badge" (classList_remove cls e) = None.
Proof.
  intros H0. apply detach_first_None. by rewrite count_class_classList_remove.
Qed.

(** X18: on an element that carries at most one badge, rendering the same
    count twice gives what rendering it once gives, and the element still
    carries at most one badge: repeated polling cycles do not pile up
    badges. *)
Theorem updateBadge_is_idempotent e count e1 :
  count_class "notification-badge" e ≤ 1 →
  updateBadge (Some e) count = Some e1 →
  updateBadge (Some e1) count = Some e1
  ∧ count_class "notification-badge" e1 ≤ 1.
Proof.
  intros Hone Hup.
  pose proof (detached_has_no_badge e Hone) as H0.
  set (e0 := match detach_first "notification-badge" e with Some e' => e' | None => e end) in *.
  destruct (decide (0 < count)%Z) as [Hpos|Hneg].
  - rewrite updateBadge_positive in Hup by done. fold e0 in Hup. injection Hup as <-.
    split.
    + rewrite updateBadge_positive by done.
      rewrite detach_first_appendChild_badge by done.
      by rewrite classList_add_idemp.
    + rewrite count_class_appendChild_badge. lia.
  - rewrite updateBadge_nonpositive in Hup by lia. fold e0 in Hup. injection Hup as <-.
    split.
    + rewrite updateBadge_nonpositive by lia.
      rewrite detach_first_classList_remove by done.
      by rewrite classList_remove_idemp.
    + rewrite count_class_classList_remove. lia.
Qed.

Lemma updateBadge_is_idempotent_witness :
  updateBadge (Some (Element "a" ["has-notification"] "Messages"
                       [Element "span" ["notification-badge"] "7" []])) 7
  = Some (Element "a" ["has-notification"] "Messages"
            [Element "span" ["notification-badge"] "7" []]).
Proof.
  apply (updateBadge_is_idempotent (Element "a" [] "Messages" []) 7).
  - cbn. lia.
  - reflexivity.
Defined.

(** X19: showing a badge on an element that has none, and no
    [has-notification] class, and then rendering a zero count gives the
    element back as it was: tag, text, classes and children. *)
Theorem badge_shown_then_cleared e count count' :
  count_class "notification-badge" e = 0 →
  "has-notification" ∉ classList_of e →
  (0 < count)%Z → (count' ≤ 0)%Z →
  ∃ e1, updateBadge (Some e) count = Some e1
        ∧ children_of e1 = children_of e ++ [badge count]
        ∧ updateBadge (Some e1) count' = Some e.
Proof.
  intros H0 Hcls Hpos Hneg.
  rewrite updateBadge_positive by done. rewrite detach_first_None by done.
  eexists. split; [reflexivity|]. split; [by destruct e|].
  rewrite updateBadge_nonpositive by done.
  rewrite detach_first_appendChild_badge by done.
  by rewrite classList_remove_add.
Qed.

Lemma badge_shown_then_cleared_witness :
  ∃ e1, updateBadge (Some (Element "a" ["dropdown-item"] "Messages" [])) 3 = Some e1
        ∧ children_of e1 = [] ++ [badge 3]
        ∧ updateBadge (Some e1) 0 = Some (Element "a" ["dropdown-item"] "Messages" []).
Proof.
  apply (badge_shown_then_cleared (Element "a" ["dropdown-item"] "Messages" []) 3 0).
  - reflexivity.
  - cbn. rewrite list_elem_of_singleton. discriminate.
  - lia.
  - lia.
Defined.
End BadgesAgain.

Section Polling.
Import Refresh.
Implicit Types (s : Poller) (c : Call) (cs : list Call) (u : string).

(** What every state of the poller satisfies: the window holds the timer
    of the module variable and no other, and the head holds the badge
    style at most once. The invariant is a record of facts, not a
    definition of the code. *)
Lemma poller_invariant cs :
  let s := foldl call idle cs in
  match notificationCheckInterval s with
  | Some h => ∃ u, intervals s = [(h, u)]
  | None => intervals s = []
  end
  ∧ (head_styles s = [] ∨ head_styles s = ["notification-badge-styles"]).
Proof.
  induction cs as [|c cs IH] using rev_ind; [by split; [|left]|].
  rewrite foldl_app. cbn [foldl]. cbn zeta in IH |- *.
  set (s := foldl call idle cs) in *. destruct IH as [Ht Hh].
  destruct c as [u| |]; cbn [call].
  - unfold startNotificationCheck. case_bool_decide; [done|]. cbn. split.
    + destruct (notificationCheckInterval s) as [h|].
      * destruct Ht as [u' ->]. unfold clearInterval.
        rewrite filter_cons, decide_False, filter_nil by (intros ?; done). eauto.
      * rewrite Ht. eauto.
    + right. unfold addBadgeStyles. destruct Hh as [->| ->]; done.
  - unfold stopNotificationCheck.
    destruct (notificationCheckInterval s) as [h|] eqn:Hi; cbn.
    + split; [|done]. destruct Ht as [u' ->]. unfold clearInterval.
      by rewrite filter_cons, decide_False, filter_nil by (intros ?; done).
    + rewrite Hi. done.
  - done.
Qed.

(** X20: whatever sequence of [start], [stop] and waiting the page goes
    through, the window holds at most one polling timer, it holds none
    exactly when the poller is stopped, and the document head holds the
    badge style at most once. *)
Theorem poller_has_at_most_one_timer cs :
  let s := foldl call idle cs in
  length (intervals s) ≤ 1
  ∧ (notificationCheckInterval s = None ↔ intervals s = [])
  ∧ length (head_styles s) ≤ 1.
Proof.
  intros s. destruct (poller_invariant cs) as [Ht Hh]. fold s in Ht, Hh.
  split; [|split].
  - destruct (notificationCheckInterval s); [destruct Ht as [u ->]|rewrite Ht]; cbn; lia.
  - destruct (notificationCheckInterval s); [destruct Ht as [u ->]|rewrite Ht]; done.
  - destruct Hh as [->| ->]; cbn; lia.
Qed.

(** X21: in any state the poller can be in, starting for a user checks at
    once and then once per period for that user only, whoever was polled
    before; after a stop a period brings no check; stopping twice is
    stopping once; and starting without a user id does nothing. *)
Theorem poller_checks_for_the_last_user cs u :
  u ≠ "" →
  let s := foldl call idle cs in
  started (after_30s (startNotificationCheck u s)) = started s ++ [u; u]
  ∧ started (after_30s (stopNotificationCheck s)) = started s
  ∧ stopNotificationCheck (stopNotificationCheck s) = stopNotificationCheck s
  ∧ startNotificationCheck "" s = s.
Proof.
  intros Hu s. destruct (poller_invariant cs) as [Ht _]. fold s in Ht.
  split; [|split; [|split]].
  - unfold startNotificationCheck. rewrite bool_decide_eq_false_2 by done. cbn.
    destruct (notificationCheckInterval s) as [h|].
    + destruct Ht as [u' ->]. unfold clearInterval.
      rewrite filter_cons, decide_False, filter_nil by (intros ?; done).
      cbn. by rewrite <- app_assoc.
    + rewrite Ht. cbn. by rewrite <- app_assoc.
  - unfold stopNotificationCheck.
    destruct (notificationCheckInterval s) as [h|] eqn:Hi; cbn.
    + destruct Ht as [u' ->]. unfold clearInterval.
      rewrite filter_cons, decide_False, filter_nil by (intros ?; done).
      cbn. by rewrite app_nil_r.
    + rewrite Ht. cbn. by rewrite app_nil_r.
  - unfold stopNotificationCheck.
    destruct (notificationCheckInterval s) as [h|] eqn:Hi; cbn; [done|by rewrite Hi].
  - done.
Qed.

Lemma poller_checks_for_the_last_user_witness :
  started (after_30s (startNotificationCheck "u2" (foldl call idle [Start "u1"; Wait30])))
  = ["u1"; "u1"; "u2"; "u2"].
Proof.
  apply (poller_checks_for_the_last_user [Start "u1"; Wait30] "u2"). discriminate.
Defined.
End Polling.

Section Refreshing.
Import Refresh.
Implicit Types (net : Network) (p : Page) (userId : string) (d : Targets) (e : Node).

Lemma run_checkUnreadMessages_unconfirmed net userId p :
  (∀ r, unconfirmed net r) →
  ∃ p', run net (checkUnreadMessages userId) p = Done p' (PNum 0)
        ∧ localStorage p' = localStorage p
        ∧ sessionStorage p' = sessionStorage p
        ∧ API_BASE p' = API_BASE p.
Proof.
  intros Hdown. unfold checkUnreadMessages.
  cbn [run mbind prog_bind bind readApiBase fetch].
  match goal with |- context [net ?r] => pose proof (Hdown r) as Hr; unfold unconfirmed in Hr;
    destruct (net r) as [|ok st body] end.
  - eexists. split; [reflexivity|]. done.
  - subst ok. eexists. split; [reflexivity|]. done.
Qed.

Lemma run_checkNewMembers_unconfirmed net userId p :
  (∀ r, unconfirmed net r) →
  ∃ p', run net (checkNewMembers userId) p = Done p' 0%Z
        ∧ localStorage p' = localStorage p
        ∧ sessionStorage p' = sessionStorage p.
Proof.
  intros Hdown.
  destruct (run_checkNewMembers_membership net userId p) as (p' & more & _ & Hss & _ & Hm).
  unfold Scenarios.current_membership in Hm.
  pose proof (Hdown (families_request (API_BASE p) userId)) as Hr. unfold unconfirmed in Hr.
  destruct (net (families_request (API_BASE p) userId)) as [|ok st body].
  - destruct Hm. by exists p'.
  - subst ok. destruct Hm. by exists p'.
Qed.

Lemma updateBadge_count e count :
  count_class "notification-badge" e ≤ 1 →
  ∃ e', updateBadge (Some e) count = Some e'
        ∧ count_class "notification-badge" e'
          = (if bool_decide (0 < count)%Z then 1 else 0)
        ∧ (¬ (0 < count)%Z → "has-notification" ∉ classList_of e')
        ∧ ((0 < count)%Z → querySelector "notification-badge" e' = Some (badge count)).
Proof.
  intros Hone. pose proof (detached_has_no_badge e Hone) as H0.
  set (e0 := match detach_first "notification-badge" e with Some e' => e' | None => e end) in *.
  case_bool_decide as Hpos.
  - rewrite updateBadge_positive by done. fold e0. eexists. split; [reflexivity|].
    split; [by rewrite count_class_appendChild_badge, H0|]. split; [done|]. intros _.
    destruct e0 as [t c x kids]. cbn [classList_add appendChild].
    rewrite querySelector_Element. apply querySelector_in_app; [|done].
    by apply querySelector_in_None.
  - rewrite updateBadge_nonpositive by lia. fold e0. eexists. split; [reflexivity|].
    split; [by rewrite count_class_classList_remove|]. split; [|done]. intros _.
    destruct e0 as [t c x kids]. cbn. rewrite list_elem_of_filter. tauto.
Qed.

(** X22: when every request fails or is refused, a refresh still ends,
    with both counts zero: it changes no storage, and each of the three
    targets that exists (and carries at most one badge) is left without a
    badge and without the [has-notification] class. Without a user id a
    refresh does nothing at all. *)
Theorem refresh_with_backend_down net userId p d :
  (∀ r, unconfirmed net r) → userId ≠ "" →
  let clean (before after : option Node) :=
    ∀ e, before = Some e → count_class "notification-badge" e ≤ 1 →
         ∃ e', after = Some e'
               ∧ count_class "notification-badge" e' = 0
               ∧ "has-notification" ∉ classList_of e' in
  (∃ p' d', run net (updateAllNotifications userId d) p = Done p' (Rendered d' 0 0)
     ∧ localStorage p' = localStorage p
     ∧ sessionStorage p' = sessionStorage p
     ∧ clean (messageLink d) (messageLink d')
     ∧ clean (manageFamilyLink d) (manageFamilyLink d')
     ∧ clean (userProfileBtn d) (userProfileBtn d'))
  ∧ run net (updateAllNotifications "" d) p = Done p Skipped.
Proof.
  intros Hdown Hu clean. split; [|reflexivity].
  destruct (run_checkUnreadMessages_unconfirmed net userId p Hdown)
    as (p1 & Hrun1 & Hls1 & Hss1 & _).
  destruct (run_checkNewMembers_unconfirmed net userId p1 Hdown) as (p2 & Hrun2 & Hls2 & Hss2).
  exists p2, (render_counts 0 0 d). split.
  { unfold updateAllNotifications. rewrite bool_decide_eq_false_2 by done.
    rewrite run_bind, Hrun1, run_bind, Hrun2. reflexivity. }
  split; [by rewrite Hls2|]. split; [by rewrite Hss2|].
  assert (Hclean : ∀ o, clean o (updateBadge o 0)).
  { intros o e -> Hone.
    destruct (updateBadge_count e 0 Hone) as (e' & Hup & Hc & Hcls & _).
    exists e'. split; [done|]. split; [done|]. apply Hcls. lia. }
  repeat split; apply Hclean.
Qed.

Lemma refresh_with_backend_down_witness :
  ∃ p' d',
    run Examples.net_down
        (updateAllNotifications "u1"
           (mkTargets (Some (Element "a" ["has-notification"] "Messages" [badge 4]))
                      None None))
        (Examples.page_with_baseline (Some "F1:U1"))
    = Done p' (Rendered d' 0 0)
    ∧ localStorage p' = localStorage (Examples.page_with_baseline (Some "F1:U1")).
Proof.
  destruct (refresh_with_backend_down Examples.net_down "u1"
              (Examples.page_with_baseline (Some "F1:U1"))
              (mkTargets (Some (Element "a" ["has-notification"] "Messages" [badge 4]))
                         None None))
    as [(p' & d' & Hrun & Hls & _) _].
  - intros r. exact I.
  - discriminate.
  - exists p', d'. split; [exact Hrun|exact Hls].
Defined.

(** X23: after the three updates, the profile button carries a badge
    exactly when one of the two links does (for counts that are not
    negative), and that badge shows the sum of the two counts. *)
Theorem profile_badge_follows_the_links d em ef ep unreadMessages newMembers :
  messageLink d = Some em → manageFamilyLink d = Some ef → userProfileBtn d = Some ep →
  count_class "notification-badge" em ≤ 1 →
  count_class "notification-badge" ef ≤ 1 →
  count_class "notification-badge" ep ≤ 1 →
  (0 ≤ unreadMessages)%Z → (0 ≤ newMembers)%Z →
  ∃ em' ef' ep',
    messageLink (render_counts unreadMessages newMembers d) = Some em'
    ∧ manageFamilyLink (render_counts unreadMessages newMembers d) = Some ef'
    ∧ userProfileBtn (render_counts unreadMessages newMembers d) = Some ep'
    ∧ (count_class "notification-badge" ep' = 1
       ↔ count_class "notification-badge" em' = 1
         ∨ count_class "notification-badge" ef' = 1)
    ∧ (count_class "notification-badge" ep' = 1 →
       querySelector "notification-badge" ep'
       = Some (badge (unreadMessages + newMembers))).
Proof.
  intros Hm Hf Hp Hem Hef Hep Hn Hk. unfold render_counts. cbn. rewrite Hm, Hf, Hp.
  destruct (updateBadge_count em unreadMessages Hem) as (em' & -> & Hcm & _).
  destruct (updateBadge_count ef newMembers Hef) as (ef' & -> & Hcf & _).
  destruct (updateBadge_count ep (unreadMessages + newMembers) Hep)
    as (ep' & -> & Hcp & _ & Hq).
  exists em', ef', ep'. split; [done|]. split; [done|]. split; [done|].
  rewrite Hcm, Hcf, Hcp. split.
  - repeat case_bool_decide; try (exfalso; lia); intuition congruence.
  - case_bool_decide; [intros _; by apply Hq|done].
Qed.

Lemma profile_badge_follows_the_links_witness :
  ∃ ep', userProfileBtn
           (render_counts 2 1
              (mkTargets (Some (Element "a" [] "Messages" []))
                         (Some (Element "a" [] "Manage My Family" []))
                         (Some (Element "button" [] "" []))))
         = Some ep'
         ∧ querySelector "notification-badge" ep' = Some (badge 3).
Proof.
  destruct (profile_badge_follows_the_links
              (mkTargets (Some (Element "a" [] "Messages" []))
                         (Some (Element "a" [] "Manage My Family" []))
                         (Some (Element "button" [] "" [])))
              (Element "a" [] "Messages" []) (Element "a" [] "Manage My Family" [])
              (Element "button" [] "" []) 2 1)
    as (em' & ef' & ep' & _ & _ & Hp & Hiff & Hq); try reflexivity; try (cbn; lia).
  exists ep'. split; [exact Hp|]. apply Hq.
  injection Hp as <-. reflexivity.
Defined.
End Refreshing.

Section Acknowledging.
Import Scenarios Refresh.
Implicit Types (net : Network) (p : Page) (type userId : string) (d : Targets).

Lemma run_checkUnreadMessages_frame net userId p :
  ∃ p' v, run net (checkUnreadMessages userId) p = Done p' v
    ∧ requests p' = requests p ++ [unread_request (API_BASE p) userId]
    ∧ sessionStorage p' = sessionStorage p
    ∧ localStorage p' = localStorage p
    ∧ API_BASE p' = API_BASE p.
Proof.
  unfold checkUnreadMessages.
  cbn [run mbind prog_bind bind readApiBase fetch].
  fold (unread_request (API_BASE p) userId).
  destruct (net _) as [|[] st [|data|l]]; cbn;
    (eexists _, _; split; [reflexivity|]); done.
Qed.


(** What a refresh does to the page, whatever the backend answers. *)
Lemma run_updateAllNotifications_frame net userId d p :
  ∃ p' r more, run net (updateAllNotifications userId d) p = Done p' r
    ∧ requests p' = requests p ++ more
    ∧ (userId ≠ "" → head more = Some (unread_request (API_BASE p) userId))
    ∧ sessionStorage p' = sessionStorage p
    ∧ (∀ k, k ≠ lastViewedKey userId → localStorage p' !! k = localStorage p !! k)
    ∧ (falsy (localStorage p !! lastViewedKey userId) = false →
       localStorage p' = localStorage p)
    ∧ (r = Skipped ↔ userId = "").
Proof.
  unfold updateAllNotifications. case_bool_decide as Hu.
  - exists p, Skipped, []. rewrite app_nil_r. done.
  - destruct (run_checkUnreadMessages_frame net userId p)
      as (p1 & v & Hrun1 & Hreq1 & Hss1 & Hls1 & Hb1).
    destruct (run_checkNewMembers_membership net userId p1)
      as (p2 & more & Hreq2 & Hss2 & _ & Hm).
    assert (Hcheck : ∃ n, run net (checkNewMembers userId) p1 = Done p2 n
              ∧ (∀ k, k ≠ lastViewedKey userId → localStorage p2 !! k = localStorage p !! k)
              ∧ (falsy (localStorage p !! lastViewedKey userId) = false →
                 localStorage p2 = localStorage p)).
    { rewrite <- Hls1.
      destruct (current_membership net (API_BASE p1) userId) as [ms|].
      - destruct (falsy (localStorage p1 !! lastViewedKey userId)); destruct Hm as [Hrun Hls].
        + exists 0%Z. split; [done|]. split; [|done].
          intros k Hk. by rewrite Hls, lookup_insert_ne.
        + eexists. split; [exact Hrun|]. by rewrite Hls.
      - destruct Hm as [Hrun Hls]. exists 0%Z. by rewrite Hls. }
    destruct Hcheck as (n & Hrun2 & Hother & Hsame).
    exists p2, (match v with
                | PNum k => Rendered (render_counts k n d) k n
                | PStr s => NotNumeric s
                end), (unread_request (API_BASE p) userId :: more).
    rewrite run_bind, Hrun1, run_bind, Hrun2.
    split; [by destruct v|].
    split; [by rewrite Hreq2, Hreq1, <- app_assoc|].
    split; [done|]. split; [by rewrite Hss2|]. split; [done|]. split; [done|].
    destruct v; done.
Qed.

(** What the branch for the type does to the page. *)
Lemma run_acknowledge_frame net type userId p :
  ∃ p' more, run net (acknowledge type userId) p = Done p' ()
    ∧ requests p' = requests p ++ more
    ∧ sessionStorage p' = sessionStorage p
    ∧ API_BASE p' = API_BASE p
    ∧ (∀ k, k ≠ lastViewedKey userId → localStorage p' !! k = localStorage p !! k)
    ∧ (type = "messages" →
       more = [read_all_request (API_BASE p) userId] ∧ localStorage p' = localStorage p)
    ∧ (type ≠ "messages" → type ≠ "family" → p' = p ∧ more = []).
Proof.
  unfold acknowledge. case_bool_decide as Hm; [|case_bool_decide as Hf].
  - cbn [run mbind prog_bind bind readApiBase fetch].
    fold (read_all_request (API_BASE p) userId).
    destruct (net _); (eexists _, [_]; split; [reflexivity|]); done.
  - cbn [run mbind prog_bind bind readApiBase fetch].
    fold (families_request (API_BASE p) userId).
    destruct (net _) as [|[] st body].
    + eexists _, [_]. split; [reflexivity|]. done.
    + destruct body as [|o|families].
      * eexists _, [_]. split; [reflexivity|]. done.
      * eexists _, [_]. split; [reflexivity|]. done.
      * destruct (run_collect_members net families []
                    (log_request (families_request (API_BASE p) userId) p))
          as (q & r & more & Hrun & Hreq & Hls & Hss & Hb).
        cbn in Hreq, Hls, Hss, Hb.
        change (bind ?x ?f) with (x ≫= f). rewrite run_bind, Hrun.
        destruct r as [ms|].
        -- eexists _, (families_request (API_BASE p) userId :: more).
           split; [reflexivity|]. cbn. rewrite Hreq, Hss, Hb, Hls, <- app_assoc.
           split; [done|]. split; [done|]. split; [done|].
           split; [intros k Hk; by rewrite lookup_insert_ne|]. done.
        -- eexists _, (families_request (API_BASE p) userId :: more).
           split; [reflexivity|]. cbn. rewrite Hreq, Hss, Hb, Hls, <- app_assoc. done.
    + eexists _, [_]. split; [reflexivity|]. done.
  - exists p, []. rewrite app_nil_r. done.
Qed.



(** X14: whatever the type, a call of [clearNotification] ends, and it
    ends with a refresh; it never touches [sessionStorage] and writes no
    key of [localStorage] but the baseline key of its user. For the
    messages, the POST to [read-all] goes out first and the unread count
    is asked for after it, whether the POST succeeds or not, and an
    existing baseline stays as it is. For a type that is neither, the
    call is the refresh and nothing else. *)
Theorem clearing_ends_with_a_refresh net type userId d p :
  ∃ p' r more,
    run net (clearNotification type userId d) p = Done p' r
    ∧ requests p' = requests p ++ more
    ∧ sessionStorage p' = sessionStorage p
    ∧ (∀ k, k ≠ lastViewedKey userId → localStorage p' !! k = localStorage p !! k)
    ∧ (r = Skipped ↔ userId = "")
    ∧ (type = "messages" →
       (∃ more', more = read_all_request (API_BASE p) userId :: more'
                 ∧ (userId ≠ "" → head more' = Some (unread_request (API_BASE p) userId)))
       ∧ (falsy (localStorage p !! lastViewedKey userId) = false →
          localStorage p' = localStorage p))
    ∧ (type ≠ "messages" → type ≠ "family" →
       run net (clearNotification type userId d) p
       = run net (updateAllNotifications userId d) p).
Proof.
  destruct (run_acknowledge_frame net type userId p)
    as (p1 & more1 & Hrun1 & Hreq1 & Hss1 & Hb1 & Hls1 & Hmsg & Hother).
  destruct (run_updateAllNotifications_frame net userId d p1)
    as (p2 & r & more2 & Hrun2 & Hreq2 & Hhead & Hss2 & Hls2 & Hsame & Hskip).
  exists p2, r, (more1 ++ more2).
  assert (Hrun : run net (clearNotification type userId d) p = Done p2 r).
  { unfold clearNotification. by rewrite run_bind, Hrun1. }
  split; [done|]. split; [by rewrite Hreq2, Hreq1, <- app_assoc|].
  split; [by rewrite Hss2|].
  split; [intros k Hk; by rewrite Hls2, Hls1|]. split; [done|]. split.
  - intros Ht. destruct (Hmsg Ht) as [-> Hls]. split.
    + exists more2. split; [done|]. intros Hu. rewrite <- Hb1. by apply Hhead.
    + intros Hf. rewrite <- Hls in Hf |- *. by apply Hsame.
  - intros Hnm Hnf. destruct (Hother Hnm Hnf) as [-> _]. by rewrite Hrun.
Qed.

Lemma clearing_ends_with_a_refresh_witness :
  ∃ p' r,
    run Examples.net_down
        (clearNotification "messages" "u1" (mkTargets (Some Examples.link_with_badge) None None))
        (Examples.page_with_baseline (Some "F1:U1")) = Done p' r
    ∧ requests p'
      = [mkRequest "POST" "http://127.0.0.1:8900/api/messages/user/u1/read-all";
         mkRequest "GET" "http://127.0.0.1:8900/api/messages/user/u1/unread-count";
         mkRequest "GET" "http://127.0.0.1:8900/api/user/u1/families"]
    ∧ localStorage p' = {[ "family_members_u1" := "F1:U1" ]}.
Proof.
  destruct (clearing_ends_with_a_refresh Examples.net_down "messages" "u1"
              (mkTargets (Some Examples.link_with_badge) None None)
              (Examples.page_with_baseline (Some "F1:U1")))
    as (p' & r & more & Hrun & _ & _ & _ & _ & Hmsg & _).
  destruct (Hmsg eq_refl) as [_ Hls].
  exists p', r. split; [exact Hrun|]. split.
  - assert (Hv : requests (Scenarios.page_after
                     (run Examples.net_down
                        (clearNotification "messages" "u1"
                           (mkTargets (Some Examples.link_with_badge) None None))
                        (Examples.page_with_baseline (Some "F1:U1"))))
                 = [mkRequest "POST" "http://127.0.0.1:8900/api/messages/user/u1/read-all";
                    mkRequest "GET" "http://127.0.0.1:8900/api/messages/user/u1/unread-count";
                    mkRequest "GET" "http://127.0.0.1:8900/api/user/u1/families"])
      by (vm_compute; reflexivity).
    by rewrite Hrun in Hv.
  - rewrite (Hls eq_refl). reflexivity.
Defined.
End Acknowledging.

(** ** user-header.js *)

Section HeaderClicks.
Import HeaderEvents.
Implicit Types (h : Header) (p : Page) (n : nat) (b : bool) (t : Target).

(** The header after [n] runs of [setupEventListeners]. *)
Lemma setups_listeners n :
  Nat.iter n setupEventListeners inserted
  = mkHeader true true true false (replicate n ToggleDropdown)
             (replicate n CloseIfOutside) (replicate n LogoutClick).
Proof.
  induction n as [|n IH]; [done|].
  rewrite Nat.iter_succ, IH. unfold setupEventListeners. cbn.
  by rewrite !replicate_cons_app.
Qed.

Lemma iter_negb n b : Nat.iter n negb b = if Nat.even n then b else negb b.
Proof.
  induction n as [|n IH]; [done|].
  rewrite Nat.iter_succ, IH, Nat.even_succ, <- Nat.negb_even.
  destruct (Nat.even n), b; done.
Qed.

Lemma toggles_fold t n h p stopped :
  foldl (λ acc l, let '(st', stopped) := acc in
                  let '(st'', s) := listen t l st' in (st'', stopped || s))
        (h, p, stopped) (replicate n ToggleDropdown)
  = (set_show (Nat.iter n negb (show h)) h, p, stopped || bool_decide (0 < n)).
Proof.
  revert h stopped. induction n as [|n IH]; intros h stopped.
  - cbn. rewrite orb_false_r. by destruct h.
  - rewrite replicate_S. cbn [foldl listen]. rewrite IH, Nat.iter_succ_r.
    destruct h; cbn [set_show show].
    rewrite (bool_decide_eq_true_2 (0 < S n)) by lia. by rewrite !orb_true_r.
Qed.

Lemma closes_fold t n h p stopped :
  t ≠ InButton → 0 < n →
  foldl (λ acc l, let '(st', stopped) := acc in
                  let '(st'', s) := listen t l st' in (st'', stopped || s))
        (h, p, stopped) (replicate n CloseIfOutside)
  = (set_show false h, p, stopped).
Proof.
  intros Ht. revert h stopped. induction n as [|n IH]; intros h stopped Hn; [lia|].
  rewrite replicate_S. cbn [foldl listen].
  destruct t; [done| |]; rewrite orb_false_r.
  - destruct n; [done|]. rewrite IH by lia. done.
  - destruct n; [done|]. rewrite IH by lia. done.
Qed.

(** The effect of the logout listener on the page. *)
Lemma deletes3_idemp (m : gmap string string) :
  delete "selectedFamily" (delete "userFamilies" (delete "currentUser"
    (delete "selectedFamily" (delete "userFamilies" (delete "currentUser" m)))))
  = delete "selectedFamily" (delete "userFamilies" (delete "currentUser" m)).
Proof.
  apply map_eq. intros k. rewrite !lookup_delete. repeat case_decide; done.
Qed.

Lemma set_localStorage_set_href f href p :
  set_localStorage f (set_href href p) = set_href href (set_localStorage f p).
Proof. reflexivity. Qed.

Lemma set_localStorage_twice f g p :
  set_localStorage f (set_localStorage g p) = set_localStorage (λ m, f (g m)) p.
Proof. reflexivity. Qed.

Lemma set_href_twice href p : set_href href (set_href href p) = set_href href p.
Proof. reflexivity. Qed.

Lemma set_localStorage_ext f g p :
  f (localStorage p) = g (localStorage p) → set_localStorage f p = set_localStorage g p.
Proof. intros Heq. unfold set_localStorage. by rewrite Heq. Qed.

Lemma logout_listener_effect p :
  match run (λ _, NetworkError) UserHeader.logoutBtn_click p with
  | Done p' _ => p' | Blocked p' _ => p' end
  = set_href "index.html"
      (set_localStorage
         (λ m, delete "selectedFamily" (delete "userFamilies" (delete "currentUser" m))) p).
Proof. reflexivity. Qed.

Lemma logout_listener_idemp p :
  match run (λ _, NetworkError) UserHeader.logoutBtn_click
          (match run (λ _, NetworkError) UserHeader.logoutBtn_click p with
           | Done p' _ => p' | Blocked p' _ => p' end) with
  | Done p' _ => p' | Blocked p' _ => p' end
  = match run (λ _, NetworkError) UserHeader.logoutBtn_click p with
    | Done p' _ => p' | Blocked p' _ => p' end.
Proof.
  rewrite !logout_listener_effect.
  rewrite set_localStorage_set_href, set_href_twice, set_localStorage_twice.
  f_equal. apply set_localStorage_ext. apply deletes3_idemp.
Qed.

Lemma logouts_fold n h p stopped :
  0 < n →
  foldl (λ acc l, let '(st', stopped) := acc in
                  let '(st'', s) := listen OnLogoutLink l st' in (st'', stopped || s))
        (h, p, stopped) (replicate n LogoutClick)
  = (h, match run (λ _, NetworkError) UserHeader.logoutBtn_click p with
        | Done p' _ => p' | Blocked p' _ => p' end, stopped).
Proof.
  revert p stopped. induction n as [|n IH]; intros p stopped Hn; [lia|].
  rewrite replicate_S. cbn [foldl listen]. rewrite orb_false_r.
  destruct n; [done|]. rewrite IH by lia. f_equal. f_equal.
  apply (logout_listener_idemp p).
Qed.

(** X24: a click on the profile button toggles the dropdown once for
    every run of [setupEventListeners] that has taken place. After one run
    it opens and closes the dropdown; after the two runs of a page load
    whose header was already in place at [DOMContentLoaded], it leaves the
    dropdown as it was, so that no sequence of clicks opens it. *)
Theorem button_click_toggles_once_per_setup n b p :
  let h := set_show b (Nat.iter n setupEventListeners inserted) in
  click InButton (h, p) = (set_show (if Nat.even n then b else negb b) h, p)
  ∧ click InButton (set_show b (setupEventListeners inserted), p)
    = (set_show (negb b) (setupEventListeners inserted), p)
  ∧ ∀ ts, show (fst (foldl (λ st t, click t st)
                           (setupEventListeners (setupEventListeners inserted), p) ts))
          = false.
Proof.
  split; [|split].
  - rewrite setups_listeners. unfold click, listen_all. cbn [fst on_button set_show].
    rewrite toggles_fold. cbn [orb show set_show]. rewrite iter_negb.
    destruct n as [|n]; [done|]. rewrite bool_decide_eq_true_2 by lia. done.
  - reflexivity.
  - intros ts. revert p.
    assert (Hstep : ∀ t p, ∃ p', click t (setupEventListeners (setupEventListeners inserted), p)
                                 = (setupEventListeners (setupEventListeners inserted), p')).
    { intros [] q; eexists; reflexivity. }
    induction ts as [|t ts IH]; intros p; [done|].
    cbn [foldl]. destruct (Hstep t p) as (p' & ->). apply IH.
Qed.

(** X25: once the listeners are set up, a click outside the profile
    button closes the dropdown; a click on the logout link closes it as
    well, after the logout listener has removed its three keys from
    [localStorage] and set the location to the login page, however many
    times the listeners were set up. *)
Theorem outside_click_closes_dropdown n b p :
  0 < n →
  let h := set_show b (Nat.iter n setupEventListeners inserted) in
  click Elsewhere (h, p) = (set_show false h, p)
  ∧ ∃ p', click OnLogoutLink (h, p) = (set_show false h, p')
          ∧ run (λ _, NetworkError) UserHeader.logoutBtn_click p = Done p' ()
          ∧ location_href p' = Some "index.html"
          ∧ sessionStorage p' = sessionStorage p.
Proof.
  intros Hn. rewrite setups_listeners. cbn zeta. split.
  - unfold click, listen_all. cbn [fst on_document set_show foldl].
    by rewrite closes_fold.
  - eexists. split; [|split; [reflexivity|done]].
    unfold click, listen_all. cbn [fst on_logout on_document set_show].
    rewrite logouts_fold by done. cbn [fst on_document set_show].
    by rewrite closes_fold.
Qed.

Lemma outside_click_closes_dropdown_witness :
  click Elsewhere (set_show true (Nat.iter 1 setupEventListeners inserted), Examples.page0)
  = (set_show false (set_show true (Nat.iter 1 setupEventListeners inserted)), Examples.page0).
Proof.
  apply (outside_click_closes_dropdown 1 true Examples.page0). lia.
Defined.
End HeaderClicks.

(** ** The family code view *)

Section WhichFamily.
Import FamilyCode FamilyView.
Implicit Types (url ls : gmap string string) (c : Component).

(** X26: when the URL carries the three fields, all non-empty, the view
    shows that family, whatever the cached values are, and leaves the
    message as it was. *)
Theorem url_family_takes_priority url ls c id name code :
  url !! "family_id" = Some id → id ≠ "" →
  url !! "family_name" = Some name → name ≠ "" →
  url !! "family_code" = Some code → code ≠ "" →
  useEffect url ls c = mkComponent (Some (mkFamily id name code)) false (view c)
  ∧ render (useEffect url ls c) = FamilyCard (mkFamily id name code) (message (view c)).
Proof.
  intros Hi Hine Hn Hnne Hc Hcne. unfold useEffect, truthy. rewrite Hi, Hn, Hc. cbn.
  rewrite !bool_decide_eq_false_2 by done. done.
Qed.

Lemma url_family_takes_priority_witness :
  render (useEffect {[ "family_id" := "42"; "family_name" := "Nguyen";
                       "family_code" := "AB12CD34" ]}
                    {[ "family_id" := "7"; "family_name" := "Old";
                       "family_code" := "ZZZZ9999" ]} initial)
  = FamilyCard (mkFamily "42" "Nguyen" "AB12CD34") "".
Proof.
  apply (url_family_takes_priority
           {[ "family_id" := "42"; "family_name" := "Nguyen"; "family_code" := "AB12CD34" ]}
           {[ "family_id" := "7"; "family_name" := "Old"; "family_code" := "ZZZZ9999" ]}
           initial "42" "Nguyen" "AB12CD34"); (reflexivity || discriminate).
Defined.

(** X27: when one of the three fields is missing from the URL, or empty,
    nothing of the URL is used: the view shows the cached family when its
    three fields are there and non-empty, and the "no family" screen
    otherwise, with the message set; it never stays on the loading
    screen. *)
Theorem family_falls_back_to_storage url ls :
  truthy (url !! "family_id") && truthy (url !! "family_name")
    && truthy (url !! "family_code") = false →
  isLoading (useEffect url ls initial) = false
  ∧ (∀ id name code,
       ls !! "family_id" = Some id → id ≠ "" →
       ls !! "family_name" = Some name → name ≠ "" →
       ls !! "family_code" = Some code → code ≠ "" →
       render (useEffect url ls initial) = FamilyCard (mkFamily id name code) "")
  ∧ (truthy (ls !! "family_id") && truthy (ls !! "family_name")
       && truthy (ls !! "family_code") = false →
     render (useEffect url ls initial) = NoFamilyFound
     ∧ message (view (useEffect url ls initial))
       = "No family information found. Please create or join a family first.").
Proof.
  intros Hurl. unfold useEffect. rewrite Hurl. split; [|split].
  - destruct (truthy (ls !! "family_id") && truthy (ls !! "family_name")
              && truthy (ls !! "family_code")); reflexivity.
  - intros id name code Hi Hine Hn Hnne Hc Hcne. unfold truthy. rewrite Hi, Hn, Hc. cbn.
    rewrite !bool_decide_eq_false_2 by done. done.
  - intros ->. done.
Qed.

Lemma family_falls_back_to_storage_witness :
  render (useEffect {[ "family_id" := "42"; "family_name" := "Nguyen" ]}
                    {[ "family_id" := "7"; "family_name" := "Old";
                       "family_code" := "ZZZZ9999" ]} initial)
  = FamilyCard (mkFamily "7" "Old" "ZZZZ9999") "".
Proof.
  assert (Hurl : FamilyView.truthy
                   (({[ "family_id" := "42"; "family_name" := "Nguyen" ]}
                     : gmap string string) !! "family_id")
                 && FamilyView.truthy
                      (({[ "family_id" := "42"; "family_name" := "Nguyen" ]}
                        : gmap string string) !! "family_name")
                 && FamilyView.truthy
                      (({[ "family_id" := "42"; "family_name" := "Nguyen" ]}
                        : gmap string string) !! "family_code") = false)
    by (vm_compute; reflexivity).
  destruct (family_falls_back_to_storage
              {[ "family_id" := "42"; "family_name" := "Nguyen" ]}
              {[ "family_id" := "7"; "family_name" := "Old"; "family_code" := "ZZZZ9999" ]}
              Hurl) as (_ & Hstored & _).
  apply (Hstored "7" "Old" "ZZZZ9999"); (reflexivity || discriminate).
Defined.
End WhichFamily.

Section StaleTimer.
Import FamilyCode.
Implicit Types (v : View) (text : string).

Lemma advance_before ms m t x rest c e :
  ms < t →
  advance ms (mkView m ((t, x) :: rest) c e)
  = mkView (message (advance ms (mkView m rest c e)))
           ((t - ms, x) :: timers (advance ms (mkView m rest c e))) c e.
Proof.
  intros Hlt. unfold advance. cbn [timers message clipboard errors].
  rewrite !filter_cons. cbn [fst snd].
  rewrite decide_False by lia. rewrite decide_True by lia. done.
Qed.

Lemma advance_due ms m t x c e :
  t ≤ ms → advance ms (mkView m [(t, x)] c e) = mkView x [] c e.
Proof.
  intros Hle. unfold advance. cbn [timers message clipboard errors].
  rewrite !filter_cons, !filter_nil. cbn [fst snd].
  rewrite decide_True by lia. rewrite decide_False by lia. done.
Qed.

Lemma advance_due_first ms m t x t' x' c e :
  t ≤ ms → ms < t' →
  advance ms (mkView m [(t, x); (t', x')] c e) = mkView x [(t' - ms, x')] c e.
Proof.
  intros Hle Hlt. unfold advance. cbn [timers message clipboard errors].
  rewrite !filter_cons, !filter_nil. cbn [fst snd].
  rewrite (decide_True _ _ Hle), decide_False by lia.
  rewrite decide_False by lia. rewrite decide_True by lia. done.
Qed.

Lemma advance_due_both ms m t x t' x' c e :
  t ≤ ms → t' ≤ ms →
  advance ms (mkView m [(t, x); (t', x')] c e) = mkView x' [] c e.
Proof.
  intros Hle Hle'. unfold advance. cbn [timers message clipboard errors].
  rewrite !filter_cons, !filter_nil. cbn [fst snd].
  rewrite !decide_True by lia. rewrite !decide_False by lia. done.
Qed.

(** X28: the timer of a successful copy is not tied to its message: a
    second copy made [wait] ms later, whether it succeeds or fails, has
    its message cleared by that first timer, [3000 - wait] ms after it
    appeared and not before. *)
Theorem later_message_cleared_by_earlier_timer text text' ok v wait :
  timers v = [] → wait < 3000 →
  let v1 := advance wait (copyToClipboard true text v) in
  let v2 := copyToClipboard ok text' v1 in
  message v2 = (if ok then "Family code copied to clipboard!"
                else "Failed to copy to clipboard")
  ∧ (∀ ms, ms < 3000 - wait → message (advance ms v2) = message v2)
  ∧ message (advance (3000 - wait) v2) = "".
Proof.
  intros Ht Hwait v1 v2.
  assert (Hv1 : v1 = mkView "Family code copied to clipboard!" [(3000 - wait, "")]
                            (Some text) (errors v)).
  { unfold v1, copyToClipboard. rewrite Ht. cbn [app].
    rewrite advance_before by done. reflexivity. }
  unfold v2. rewrite Hv1. clear v1 v2 Hv1.
  split; [by destruct ok|]. split.
  - intros ms Hms. destruct ok; unfold copyToClipboard; cbn [timers clipboard errors app];
      rewrite !advance_before by lia; reflexivity.
  - destruct ok; unfold copyToClipboard; cbn [timers clipboard errors app].
    + destruct (decide (wait = 0)) as [->|Hne].
      * by rewrite advance_due_both by lia.
      * by rewrite advance_due_first by lia.
    + by rewrite advance_due.
Qed.

Lemma later_message_cleared_by_earlier_timer_witness :
  message (advance 1000 (copyToClipboard false "AB12CD34"
                           (advance 2000 (copyToClipboard true "AB12CD34" Examples.view0))))
  = "".
Proof.
  apply (later_message_cleared_by_earlier_timer "AB12CD34" "AB12CD34" false
           Examples.view0 2000 eq_refl). lia.
Defined.
End StaleTimer.
